(** * aeronear: the stepper-motor pointer, LED ring and saved position of planes.py

    A shallow embedding of the actuation part of [planes.py]: the LED ring
    ([strip_clear], the cell lit by [spotted]), the stepper motor
    ([motor_step], [motor_off], [plane_rotate], [plane_track]), the two
    calibration procedures, [save_position] and the start-up code.

    Modelling conventions.
    - The module-level variables of the script ([north], [position],
      [current_step], [accumulated_error], the pixel buffer [strip]) are the
      fields of one record [world] that every function takes and returns.
    - Python [int] values are [Z].  Python [float] values are exact rationals
      [Q]: rounding of binary64 arithmetic is not modelled.  [int(x)] on a
      float is truncation toward zero ([py_int]); [%] with a positive modulus
      is [Z.modulo].
    - [time.sleep] and the wall clock are not modelled.  What the operator does
      with the push button during a calibration is an input: the number of
      polls of the button that read HIGH before five idle seconds pass.
    - Outputs that cannot be read back (GPIO writes, the pixels shown, the
      state file) are fields of [world] too; [trace] is a ghost log of the
      motor steps and of the procedures that ran. *)

From Stdlib Require Import ZArith QArith Qabs Qround Lqa Lia List Bool String.
From stdpp Require Import base list gmap strings.
Import ListNotations.

Local Open Scope Z_scope.

(** ** Numbers *)

(** [int(x)] for a float [x]: the integer part, rounded toward zero. *)
Definition py_int (x : Q) : Z := Z.quot (Qnum x) (Z.pos (Qden x)).

(** [x > y] on numbers, as a boolean. *)
Definition Qgt_bool (x y : Q) : bool := negb (Qle_bool x y).

(** ** The state of the script *)

(** The four coil outputs A, B, C, D. *)
Definition phase : Type := (bool * bool * bool * bool)%type.

(** An RGB pixel of the NeoPixel ring. *)
Definition colour : Type := (Z * Z * Z)%type.

(** A line [name = value] of the state file planes_position.py. *)
Inductive line : Type := Assign (name : string) (value : Z).

Inductive event : Type :=
| Step (clockwise : bool)      (* motor_step ran *)
| Off                          (* motor_off ran *)
| CalibrateStrip               (* calibrate_strip ran *)
| CalibratePlane               (* calibrate_plane ran *)
| Saved (n p : Z).             (* save_position ran with these values *)

Record world : Type := World {
  north : Z;
  position : Z;
  current_step : Z;
  accumulated_error : Q;
  coils : phase;
  strip : list colour;
  leds : list colour;
  disk : gmap string (list line);
  trace : list event
}.

Definition set_north (v : Z) (w : world) : world :=
  World v (position w) (current_step w) (accumulated_error w) (coils w)
        (strip w) (leds w) (disk w) (trace w).
Definition set_position (v : Z) (w : world) : world :=
  World (north w) v (current_step w) (accumulated_error w) (coils w)
        (strip w) (leds w) (disk w) (trace w).
Definition set_current_step (v : Z) (w : world) : world :=
  World (north w) (position w) v (accumulated_error w) (coils w)
        (strip w) (leds w) (disk w) (trace w).
Definition set_accumulated_error (v : Q) (w : world) : world :=
  World (north w) (position w) (current_step w) v (coils w)
        (strip w) (leds w) (disk w) (trace w).
Definition set_coils (v : phase) (w : world) : world :=
  World (north w) (position w) (current_step w) (accumulated_error w) v
        (strip w) (leds w) (disk w) (trace w).
Definition set_strip (v : list colour) (w : world) : world :=
  World (north w) (position w) (current_step w) (accumulated_error w) (coils w)
        v (leds w) (disk w) (trace w).
Definition set_leds (v : list colour) (w : world) : world :=
  World (north w) (position w) (current_step w) (accumulated_error w) (coils w)
        (strip w) v (disk w) (trace w).
Definition set_disk (v : gmap string (list line)) (w : world) : world :=
  World (north w) (position w) (current_step w) (accumulated_error w) (coils w)
        (strip w) (leds w) v (trace w).
Definition log (e : event) (w : world) : world :=
  World (north w) (position w) (current_step w) (accumulated_error w) (coils w)
        (strip w) (leds w) (disk w) (trace w ++ [e]).

(** ** The stepper motor *)

Definition revolution : Z := 2038.
Definition steps_per_degree : Q := inject_Z revolution / 360.

Definition steps : Z := 4.

Definition seq : list phase :=
  [ (true,  true,  false, false);
    (false, true,  true,  false);
    (false, false, true,  true);
    (true,  false, false, true) ].

(** [seq[i]] for an index that is in range. *)
Definition seq_at (i : Z) : phase :=
  nth (Z.to_nat i) seq (false, false, false, false).

Definition motor_set_coils (a b c d : bool) (w : world) : world :=
  set_coils (a, b, c, d) w.

Definition motor_step (clockwise : bool) (w : world) : world :=
  let w := if clockwise
           then set_position (position w + 1)
                  (set_current_step (current_step w + 1) w)
           else set_position (position w - 1)
                  (set_current_step (current_step w - 1) w) in
  let w := set_current_step (current_step w mod steps) w in
  let w := set_position (position w mod revolution) w in
  let '(a, b, c, d) := seq_at (current_step w) in
  log (Step clockwise) (motor_set_coils a b c d w).

Definition motor_off (w : world) : world :=
  log Off (motor_set_coils false false false false w).

(** [for i in range(count)]: no iteration when [count <= 0]. *)
Definition plane_rotate (count : Z) (clockwise : bool) (w : world) : world :=
  motor_off (Nat.iter (Z.to_nat count) (motor_step clockwise) w).

(** Lines 193-201 of [plane_track]: the signed step count [delta] and the new
    accumulated error, from the bearing, the position and the old error. *)
Definition track_delta (trak : Q) (pos : Z) (err : Q) : Z * Q :=
  let d := (trak * steps_per_degree - inject_Z pos)%Q in
  let delta := py_int d in
  let err := (err + (d - inject_Z delta))%Q in
  if Qle_bool 1 (Qabs err) then
    let fix_ := py_int err in
    (delta + fix_, (err - inject_Z fix_)%Q)
  else (delta, err).

(** Lines 203-208 of [plane_track]: the count and direction handed to
    [plane_rotate]. *)
Definition shortest_path (delta : Z) : Z * bool :=
  let clockwise := 0 <? delta in
  let delta := Z.abs delta in
  if Qgt_bool (inject_Z delta) (inject_Z revolution / 2)
  then (revolution - delta, negb clockwise)
  else (delta, clockwise).

Definition plane_track (trak : Q) (w : world) : world :=
  let '(delta, err) := track_delta trak (position w) (accumulated_error w) in
  let w := set_accumulated_error err w in
  let '(count, clockwise) := shortest_path delta in
  plane_rotate count clockwise w.

(** ** The ring of LEDs *)

Definition LED_COUNT : Z := 24.
Definition led_intensity : Z := 128.

(** [strip[i] = c], for an index [0 <= i < LED_COUNT]. *)
Definition strip_set (i : Z) (c : colour) (w : world) : world :=
  set_strip (<[Z.to_nat i := c]> (strip w)) w.

(** [strip.show()]: the buffer becomes what the ring displays. *)
Definition strip_show (w : world) : world := set_leds (strip w) w.

Definition strip_clear (w : world) : world :=
  foldl (fun w i => strip_set (Z.of_nat i) (0, 0, 0) w) w
        (List.seq 0 (Z.to_nat LED_COUNT)).

Definition strip_spin (w : world) : world :=
  let w := strip_show (strip_clear w) in
  let w := foldl (fun w n =>
                    let i := Z.of_nat n in
                    let w := if 0 <? i then strip_set (i - 1) (0, 0, 0) w else w in
                    strip_show (strip_set i (0, 0, led_intensity) w))
                 w (List.seq 0 (Z.to_nat LED_COUNT)) in
  strip_show (strip_clear w).

(** One pass of the loop of [calibrate_strip] that reads the button HIGH. *)
Definition calibrate_strip_poll (s : Z * world) : Z * world :=
  let '(i, w) := s in
  let w := strip_set i (0, 0, 0) w in
  let i := (i + 1) mod LED_COUNT in
  let w := strip_set i (0, 0, led_intensity) w in
  (i, strip_show w).

(** [calibrate_strip], for an operator whose button reads HIGH at [highs]
    polls before the five idle seconds have passed.  Returns the cell. *)
Definition calibrate_strip (highs : nat) (w : world) : Z * world :=
  let w := log CalibrateStrip w in
  let w := strip_show (strip_clear w) in
  let i := 0 in
  let w := strip_show (strip_set i (0, 0, led_intensity) w) in
  let '(i, w) := Nat.iter highs calibrate_strip_poll (i, w) in
  let w := strip_show (strip_set i (led_intensity, 0, 0) w) in
  (i, w).

(** [calibrate_plane], same convention for the operator. *)
Definition calibrate_plane (highs : nat) (w : world) : world :=
  Nat.iter highs (plane_rotate 4 true) (log CalibratePlane w).

(** ** The state file *)

Definition state_file : string := "planes_position.py".

(** The calls [save_position] makes on the file system. *)
Inductive fs_op : Type :=
| Open_w (path : string)                       (* open(path, 'w') *)
| Writelines (path : string) (ls : list line)  (* f.writelines(ls) *)
| Close (path : string).                       (* f.close() *)

(** Opening for writing creates or empties the file; lines are appended to
    an open file. *)
Definition fs_step (d : gmap string (list line)) (op : fs_op)
  : gmap string (list line) :=
  match op with
  | Open_w p => <[p := []]> d
  | Writelines p ls =>
      match d !! p with
      | Some old => <[p := old ++ ls]> d
      | None => d
      end
  | Close p => d
  end.

Definition save_position_ops (w : world) : list fs_op :=
  [ Open_w state_file;
    Writelines state_file
      [Assign "north" (north w); Assign "position" (position w)];
    Close state_file ].

(** Every content of the disk while the calls run, the first one before any
    call and the last one after all of them. *)
Fixpoint fs_states (d : gmap string (list line)) (ops : list fs_op)
  : list (gmap string (list line)) :=
  match ops with
  | [] => [d]
  | op :: ops => d :: fs_states (fs_step d op) ops
  end.

Definition save_position (w : world) : world :=
  log (Saved (north w) (position w))
      (set_disk (foldl fs_step (disk w) (save_position_ops w)) w).

(** [from planes_position import north, position]: the file is run, the last
    assignment to a name wins; a missing file or name is an ImportError. *)
Definition lookup_var (x : string) (ls : list line) : option Z :=
  foldl (fun r l => match l with
                    | Assign n v => if String.eqb n x then Some v else r
                    end) None ls.

Definition load_position (d : gmap string (list line)) : option (Z * Z) :=
  match d !! state_file with
  | Some ls =>
      match lookup_var "north" ls, lookup_var "position" ls with
      | Some n, Some p => Some (n, p)
      | _, _ => None
      end
  | None => None
  end.

(** ** Tracking an aircraft, and start-up *)

(** [spotted], without the drawing of the screen. *)
Definition spotted (bearing trak : Q) (w : world) : world :=
  let w := strip_clear w in
  let w := strip_set
             ((north w + py_int (inject_Z LED_COUNT * bearing / 360)) mod LED_COUNT)
             (0, led_intensity, 0) w in
  let w := strip_show w in
  let w := plane_track trak w in
  save_position w.

(** [blank], without the screen. *)
Definition blank (w : world) : world := strip_show (strip_clear w).

(** What the operator does during the two calibrations. *)
Record operator : Type := Operator { strip_highs : nat; plane_highs : nat }.

(** The module-level code between the function definitions and the main
    loop (lines 477-489). *)
Definition startup (o : operator) (w : world) : world :=
  let w := strip_spin w in
  let w := if north w =? -1 then
             let '(i, w) := calibrate_strip (strip_highs o) w in
             let w := set_north i w in
             let w := calibrate_plane (plane_highs o) w in
             let w := set_position 0 w in
             save_position w
           else w in
  let w := strip_show (strip_clear w) in
  blank w.

(** The functions of the script that touch the state, as one type. *)
Inductive operation : Type :=
| OpMotorStep (clockwise : bool)
| OpMotorOff
| OpPlaneRotate (count : Z) (clockwise : bool)
| OpPlaneTrack (trak : Q)
| OpStripClear
| OpStripSpin
| OpCalibrateStrip (highs : nat)
| OpCalibratePlane (highs : nat)
| OpSavePosition
| OpSpotted (bearing trak : Q)
| OpBlank.

Definition run (op : operation) (w : world) : world :=
  match op with
  | OpMotorStep cw => motor_step cw w
  | OpMotorOff => motor_off w
  | OpPlaneRotate n cw => plane_rotate n cw w
  | OpPlaneTrack t => plane_track t w
  | OpStripClear => strip_clear w
  | OpStripSpin => strip_spin w
  | OpCalibrateStrip h => snd (calibrate_strip h w)
  | OpCalibratePlane h => calibrate_plane h w
  | OpSavePosition => save_position w
  | OpSpotted b t => spotted b t w
  | OpBlank => blank w
  end.

(** A state the script can start from: ring buffer of [LED_COUNT] pixels,
    nothing accumulated, motor at rest. *)
Definition initial (n p : Z) (d : gmap string (list line)) : world :=
  World n p 0 0 (false, false, false, false)
        (replicate (Z.to_nat LED_COUNT) (0, 0, 0))
        (replicate (Z.to_nat LED_COUNT) (0, 0, 0)) d [].

Definition steps_in (tr : list event) : list bool :=
  omap (fun e => match e with Step cw => Some cw | _ => None end) tr.

(** ** Notions used in the statements *)

(** Where a walk of single steps from [p] ends. *)
Definition walk (p : Z) (dirs : list bool) : Z :=
  foldl (fun p (cw : bool) => (if cw then p + 1 else p - 1) mod revolution) p dirs.

(** What the motor functions leave alone. *)
Definition motor_frame (w w' : world) : Prop :=
  north w' = north w /\ strip w' = strip w /\ leds w' = leds w /\
  disk w' = disk w.

(** The place, in steps, that a bearing asks for. *)
Definition target (trak : Q) : Q := (trak * steps_per_degree)%Q.

(** The four-phase sequence as the specification lists it. *)
Definition canonical_phase (i : Z) : option phase :=
  match i with
  | 0 => Some (true, true, false, false)
  | 1 => Some (false, true, true, false)
  | 2 => Some (false, false, true, true)
  | 3 => Some (true, false, false, true)
  | _ => None
  end.

(** What the functions of the LED ring leave alone. *)
Definition strip_frame (w w' : world) : Prop :=
  north w' = north w /\ position w' = position w /\
  current_step w' = current_step w /\
  accumulated_error w' = accumulated_error w /\ coils w' = coils w /\
  disk w' = disk w /\ trace w' = trace w.


(** Rounding to the nearest integer, as the specification words the cell of
    the ring (halves go up). *)
Definition round_nearest (x : Q) : Z := Qfloor (x + (1 # 2)).

(** The file a call is on. *)
Definition fs_path (op : fs_op) : string :=
  match op with
  | Open_w p => p
  | Writelines p _ => p
  | Close p => p
  end.

(** A reader of [path] sees the old content or the new one, whenever it reads
    while the calls [ops] run. *)
Definition never_torn (path : string) (d : gmap string (list line))
           (ops : list fs_op) : Prop :=
  forall d' : gmap string (list line),
    In d' (fs_states d ops) ->
    d' !! path = d !! path \/ d' !! path = foldl fs_step d ops !! path.

(** The position is less than one step from the place [t], counted round the
    circle of [revolution] steps. *)
Definition within_one_step (p : Z) (t : Q) : Prop :=
  exists k : Z, (Qabs (inject_Z (p + k * revolution) - t) < 1)%Q.

(** The positions after 1, 2, 3, ... calls come back to a position they had
    left. *)
Definition returns_to_a_left_position (pos : nat -> Z) : Prop :=
  exists i j k : nat,
    (1 <= i < j)%nat /\ (j < k)%nat /\ pos j <> pos i /\ pos k = pos i.

(** The state the script tracks from. *)
Definition tracker_ok (w : world) : Prop :=
  0 <= position w < revolution /\ (-1 < accumulated_error w < 1)%Q.

(** ** Text, look-ups and the feed *)

(** How a call of the script ends: with a value, or with an exception that
    nothing catches. *)
Inductive py_error : Type := IndexError | KeyError | ValueError.

Inductive py_result (A : Type) : Type :=
| Returned (a : A)
| Raised (e : py_error).
Arguments Returned {A} a.
Arguments Raised {A} e.

(** [c.isspace()] for a character below U+0100; a [string] stands for a
    Python text of such characters. *)
Definition py_isspace (c : Ascii.ascii) : bool :=
  let n := Ascii.N_of_ascii c in
  ((9 <=? n) && (n <=? 13) || (28 <=? n) && (n <=? 31) || (n =? 32)
   || (n =? 133) || (n =? 160))%N.

Fixpoint py_lstrip (s : string) : string :=
  match s with
  | EmptyString => EmptyString
  | String c s' => if py_isspace c then py_lstrip s' else s
  end.

(** [s.strip()] *)
Definition py_strip (s : string) : string :=
  String.rev (py_lstrip (String.rev (py_lstrip s))).

(** [findcsv], on the rows that [csv.reader] yields for the file (an empty
    line is the row [[]]); [col] is 2 or 4 in the script.  [row[col]] raises
    IndexError on a row that is too short. *)
Fixpoint findcsv (rows : list (list string)) (col : nat) (match_ : string)
  : py_result (list string) :=
  match rows with
  | [] => Returned [match_; match_; match_; match_; match_]
  | row :: rows =>
      match row !! col with
      | None => Raised IndexError
      | Some field =>
          if String.eqb field (py_strip match_) then Returned row
          else findcsv rows col match_
      end
  end.

Definition required : list string :=
  [ "call"; "type"; "opicao"; "from"; "to"; "lat"; "lon"; "trak"; "gnd" ]%string.

(** The inner loop of the main loop (lines 515-519), for an aircraft of the
    feed: a JSON object whose values are texts. *)
Fixpoint has_required (rs : list string) (ac : gmap string string) : bool :=
  match rs with
  | [] => true
  | r :: rs =>
      match ac !! r with
      | None => false
      | Some v => if String.eqb (py_strip v) "" then false
                  else has_required rs ac
      end
  end.

(** The loop that builds [near] (lines 513-522).  [ac['gnd']] raises KeyError
    on an aircraft without that key. *)
Fixpoint near_loop (acs near : list (gmap string string))
  : py_result (list (gmap string string)) :=
  match acs with
  | [] => Returned near
  | ac :: acs =>
      if has_required required ac then
        match ac !! "gnd"%string with
        | None => Raised KeyError
        | Some g => if String.eqb g "0" then near_loop acs (near ++ [ac])
                    else near_loop acs near
        end
      else near_loop acs near
  end.

Definition build_near (acs : list (gmap string string))
  : py_result (list (gmap string string)) :=
  near_loop acs [].

(** [near.sort(key=distance)] and [near[0]] (lines 527-529).  [distance a] is
    a float computed with sines and cosines from [float(a['lat'])] and
    [float(a['lon'])]; here its outcome is given: a number, or the exception
    it raises.  [list.sort] computes every key first, in order, and then
    sorts; it is stable, and written here as an insertion sort. *)
Section Nearest.
Variable distance : gmap string string -> py_result Q.

Fixpoint sort_keys (l : list (gmap string string))
  : py_result (list (Q * gmap string string)) :=
  match l with
  | [] => Returned []
  | a :: l =>
      match distance a with
      | Raised e => Raised e
      | Returned k =>
          match sort_keys l with
          | Raised e => Raised e
          | Returned ks => Returned ((k, a) :: ks)
          end
      end
  end.

Fixpoint sort_insert (x : Q * gmap string string)
         (l : list (Q * gmap string string))
  : list (Q * gmap string string) :=
  match l with
  | [] => [x]
  | y :: l' => if Qgt_bool (fst x) (fst y) then y :: sort_insert x l'
               else x :: l
  end.

Definition sort_keyed (l : list (Q * gmap string string))
  : list (Q * gmap string string) :=
  foldr sort_insert [] l.

(** [None] when [len(near) > 0] is false. *)
Definition nearest (near : list (gmap string string))
  : py_result (option (gmap string string)) :=
  if (0 <? length near)%nat then
    match sort_keys near with
    | Raised e => Raised e
    | Returned ks => Returned (snd <$> head (sort_keyed ks))
    end
  else Returned None.
End Nearest.

(** ** Text on the screen *)

Definition spacing : Z := 4.

(** What [text] keeps between calls, and what was drawn: position, text and
    font size of each [d.text]. *)
Record screen : Type := Screen {
  last_text : string;
  drawn : list (Z * Z * string * Z)
}.

Section Text.
(** [ImageFont.truetype('DejaVuSansMono.ttf', s).getsize(t)]: width and
    height of [t] at size [s]. *)
Variable getsize : Z -> string -> Z * Z.

(** The [while s >= 10] loop of [text]; [None] when the fuel runs out. *)
Fixpoint text_loop (fuel : nat) (x y : Z) (t : string) (s : Z) (up : bool)
         (d : list (Z * Z * string * Z))
  : option (Z * list (Z * Z * string * Z)) :=
  match fuel with
  | O => None
  | S fuel =>
      if 10 <=? s then
        let '(w, h) := getsize s t in
        if w <=? 320 - x then
          let y := if up then y - h else y in
          let d := d ++ [(x, y, t, s)] in
          if up then Some (y - spacing, d) else Some (y + h + spacing, d)
        else text_loop fuel x y t (s - 2) up d
      else Some (y, d)
  end.

Definition text (x y : Z) (t : string) (s : Z) (up : bool) (sc : screen)
  : option (Z * screen) :=
  if String.eqb (last_text sc) t then Some (y, sc)
  else
    match text_loop (S (Z.to_nat (s - 9))) x y t s up (drawn sc) with
    | Some (y', d) => Some (y', Screen t d)
    | None => None
    end.
End Text.

(** ** The image shown *)

Definition screen_tmp : string := "/tmp/planes.tmp.png".
Definition screen_file : string := "/tmp/planes.png".

(** The calls of [screen_show] on the files: [img.save(path)], which creates
    or empties the file and then writes the image, and [mv src dst]. *)
Inductive file_op (I : Type) : Type :=
| Save_open (path : string)
| Save_write (path : string) (img : I)
| Mv (src dst : string).
Arguments Save_open {I} path.
Arguments Save_write {I} path img.
Arguments Mv {I} src dst.

(** A file holds an image, or is empty or half written ([None]). *)
Definition file_step {I : Type} (d : gmap string (option I)) (op : file_op I)
  : gmap string (option I) :=
  match op with
  | Save_open p => <[p := None]> d
  | Save_write p img => <[p := Some img]> d
  | Mv src dst =>
      match d !! src with
      | Some c => <[dst := c]> (delete src d)
      | None => d
      end
  end.

(** The first two lines of [screen_show]; starting [fbi] is left out. *)
Definition screen_show_ops {I : Type} (img : I) : list (file_op I) :=
  [ Save_open screen_tmp; Save_write screen_tmp img; Mv screen_tmp screen_file ].

Fixpoint file_states {I : Type} (d : gmap string (option I))
         (ops : list (file_op I)) : list (gmap string (option I)) :=
  match ops with
  | [] => [d]
  | op :: ops => d :: file_states (file_step d op) ops
  end.

(** ** The main loop, seen from the motor and the ring *)

(** What one pass of the main loop does with the state: it calls [spotted]
    when an aircraft is shown and [blank] when there is none. *)
Inductive cycle : Type :=
| Spotted (bearing trak : Q)
| Blank.

Definition run_cycle (c : cycle) (w : world) : world :=
  match c with
  | Spotted bearing trak => spotted bearing trak w
  | Blank => blank w
  end.

(** ** More notions used in the statements *)

(** Where the phase index ends after single steps from [c]. *)
Definition phase_walk (c : Z) (dirs : list bool) : Z :=
  foldl (fun c (cw : bool) => (if cw then c + 1 else c - 1) mod steps) c dirs.

(** All four coils without current. *)
Definition coils_off : phase := (false, false, false, false).

(** A ring with every pixel off. *)
Definition dark : list colour := replicate (Z.to_nat LED_COUNT) (0, 0, 0).

(** The state file holds the [north] and [position] of the running script. *)
Definition in_sync (w : world) : Prop :=
  load_position (disk w) = Some (north w, position w).

(** A row whose field [col] is there and is not the text looked for. *)
Definition other_row (col : nat) (key : string) (row : list string) : Prop :=
  exists field : string, row !! col = Some field /\ field <> key.

(** An aircraft of the feed that the main loop keeps: every required field
    is there and is not blank, and it is not on the ground. *)
Definition wanted (ac : gmap string string) : Prop :=
  (forall r : string, r ∈ required ->
     exists v : string, ac !! r = Some v /\ py_strip v <> ""%string) /\
  ac !! "gnd"%string = Some "0"%string.

(** * Properties *)

(** ** Truncation *)

Lemma py_int_nonneg (q : Q) :
  (0 <= q)%Q -> (inject_Z (py_int q) <= q /\ q < inject_Z (py_int q) + 1)%Q.
Proof.
  destruct q as [n d]. unfold py_int, Qle, Qlt, inject_Z, Qplus. simpl.
  intros Hn.
  assert (Hq := Z.quot_rem' n (Z.pos d)).
  assert (Hr : 0 <= Z.rem n (Z.pos d) < Z.pos d)
    by (apply Z.rem_bound_pos; lia).
  nia.
Qed.

Lemma py_int_nonpos (q : Q) :
  (q <= 0)%Q -> (inject_Z (py_int q) - 1 < q /\ q <= inject_Z (py_int q))%Q.
Proof.
  destruct q as [n d]. unfold py_int, Qle, Qlt, inject_Z, Qminus, Qplus, Qopp.
  simpl. intros Hn.
  assert (Hq := Z.quot_rem' n (Z.pos d)).
  assert (Hr : - Z.pos d < Z.rem n (Z.pos d) <= 0).
  { assert (H : 0 <= Z.rem (- n) (Z.pos d) < Z.pos d)
      by (apply Z.rem_bound_pos; lia).
    rewrite Z.rem_opp_l' in H. lia. }
  nia.
Qed.

(** The part cut off by [int] has the sign of the number and is smaller than
    one. *)
Lemma py_int_remainder (q : Q) :
  ((0 <= q -> 0 <= q - inject_Z (py_int q) < 1) /\
   (q <= 0 -> -1 < q - inject_Z (py_int q) <= 0))%Q.
Proof.
  split; intros H.
  - destruct (py_int_nonneg q H). split; lra.
  - destruct (py_int_nonpos q H). split; lra.
Qed.

Lemma inject_Z_lt_inv (a b : Z) : (inject_Z a < inject_Z b)%Q -> a < b.
Proof. intros H. rewrite Zlt_Qlt. exact H. Qed.

(** An integer strictly between [q - 1] and [q + 1] on the side of zero is
    the truncation of [q]. *)
Lemma py_int_unique_nonneg (q : Q) (k : Z) :
  (inject_Z k <= q)%Q -> (q < inject_Z k + 1)%Q -> 0 <= k -> py_int q = k.
Proof.
  intros H1 H2 Hk.
  assert (Hq : (0 <= q)%Q).
  { apply Qle_trans with (inject_Z k); [|exact H1].
    unfold Qle, inject_Z; simpl; lia. }
  destruct (py_int_nonneg q Hq) as [H3 H4].
  assert (py_int q < k + 1).
  { apply inject_Z_lt_inv. rewrite inject_Z_plus.
    change (inject_Z 1) with 1%Q. lra. }
  assert (k < py_int q + 1).
  { apply inject_Z_lt_inv. rewrite inject_Z_plus.
    change (inject_Z 1) with 1%Q. lra. }
  lia.
Qed.

Lemma py_int_unique_nonpos (q : Q) (k : Z) :
  (inject_Z k - 1 < q)%Q -> (q <= inject_Z k)%Q -> k <= 0 -> py_int q = k.
Proof.
  intros H1 H2 Hk.
  assert (Hq : (q <= 0)%Q).
  { apply Qle_trans with (inject_Z k); [exact H2|].
    unfold Qle, inject_Z; simpl; lia. }
  destruct (py_int_nonpos q Hq) as [H3 H4].
  assert (py_int q < k + 1).
  { apply inject_Z_lt_inv. rewrite inject_Z_plus.
    change (inject_Z 1) with 1%Q. lra. }
  assert (k < py_int q + 1).
  { apply inject_Z_lt_inv. rewrite inject_Z_plus.
    change (inject_Z 1) with 1%Q. lra. }
  lia.
Qed.

(** ** The motor: one step, many steps *)

Lemma motor_step_unfold (cw : bool) (w : world) :
  motor_step cw w =
  World (north w)
        ((if cw then position w + 1 else position w - 1) mod revolution)
        ((if cw then current_step w + 1 else current_step w - 1) mod steps)
        (accumulated_error w)
        (seq_at ((if cw then current_step w + 1 else current_step w - 1) mod steps))
        (strip w) (leds w) (disk w) (trace w ++ [Step cw]).
Proof.
  unfold motor_step.
  destruct cw; cbn [set_position set_current_step current_step position
    north accumulated_error coils strip leds disk trace];
    match goal with |- context [seq_at ?i] =>
      destruct (seq_at i) as [[[a b] c] d] end; reflexivity.
Qed.

Lemma seq_at_in_range (i : Z) :
  seq !! Z.to_nat (i mod steps) = Some (seq_at (i mod steps)).
Proof.
  assert (H : 0 <= i mod steps < 4) by (apply Z.mod_pos_bound; reflexivity).
  unfold seq_at.
  destruct (Z.to_nat (i mod steps)) as [|[|[|[|n]]]] eqn:E;
    try reflexivity; lia.
Qed.

Lemma walk_app (p : Z) (l1 l2 : list bool) :
  walk p (l1 ++ l2) = walk (walk p l1) l2.
Proof. unfold walk. apply foldl_app. Qed.


Lemma walk_replicate (p : Z) (n : nat) (cw : bool) :
  0 <= p < revolution ->
  walk p (replicate n cw) =
  (p + (if cw then 1 else -1) * Z.of_nat n) mod revolution.
Proof.
  intros Hp. induction n as [|n IH].
  - simpl. rewrite Z.mul_0_r, Z.add_0_r. symmetry. now apply Z.mod_small.
  - replace (S n) with (n + 1)%nat by lia.
    rewrite replicate_add, walk_app, IH. simpl.
    destruct cw.
    + rewrite Z.add_mod_idemp_l by discriminate. f_equal. lia.
    + rewrite Zminus_mod_idemp_l. f_equal. lia.
Qed.

Lemma iter_motor_step_frame (n : nat) (cw : bool) (w : world) :
  let w' := Nat.iter n (motor_step cw) w in
  motor_frame w w' /\ accumulated_error w' = accumulated_error w /\
  trace w' = trace w ++ replicate n (Step cw) /\
  position w' = walk (position w) (replicate n cw).
Proof.
  induction n as [|n IH].
  - simpl. unfold motor_frame. rewrite app_nil_r. tauto.
  - cbn zeta in *. rewrite Nat.iter_succ.
    destruct IH as ((H1 & H2 & H3 & H4) & H5 & H6 & H7).
    rewrite motor_step_unfold. unfold motor_frame.
    cbn [north position accumulated_error strip leds disk trace].
    replace (S n) with (n + 1)%nat by lia.
    rewrite !replicate_add, walk_app, H6, H7, <- app_assoc.
    repeat split; assumption.
Qed.

Lemma plane_rotate_frame (count : Z) (cw : bool) (w : world) :
  let w' := plane_rotate count cw w in
  motor_frame w w' /\ accumulated_error w' = accumulated_error w /\
  trace w' = trace w ++ replicate (Z.to_nat count) (Step cw) ++ [Off] /\
  position w' = walk (position w) (replicate (Z.to_nat count) cw).
Proof.
  cbn zeta. unfold plane_rotate, motor_off, motor_set_coils.
  destruct (iter_motor_step_frame (Z.to_nat count) cw w)
    as ((H1 & H2 & H3 & H4) & H5 & H6 & H7).
  unfold motor_frame.
  cbn [log set_coils north position accumulated_error strip leds disk trace].
  rewrite H6, <- app_assoc. repeat split; assumption.
Qed.

Lemma plane_track_frame (trak : Q) (w : world) :
  let w' := plane_track trak w in
  let delta := fst (track_delta trak (position w) (accumulated_error w)) in
  let count := fst (shortest_path delta) in
  let cw := snd (shortest_path delta) in
  motor_frame w w' /\
  accumulated_error w' =
    snd (track_delta trak (position w) (accumulated_error w)) /\
  trace w' = trace w ++ replicate (Z.to_nat count) (Step cw) ++ [Off] /\
  position w' = walk (position w) (replicate (Z.to_nat count) cw).
Proof.
  cbn zeta. unfold plane_track.
  destruct (track_delta trak (position w) (accumulated_error w))
    as [delta err].
  cbn [fst snd].
  destruct (shortest_path delta) as [count cw]. cbn [fst snd].
  destruct (plane_rotate_frame count cw (set_accumulated_error err w))
    as (H1 & H2 & H3 & H4).
  exact (conj H1 (conj H2 (conj H3 H4))).
Qed.

(** ** The shortest way round *)

Lemma shortest_path_unfold (delta : Z) :
  shortest_path delta =
  if Z.abs delta * 2 <=? revolution
  then (Z.abs delta, 0 <? delta)
  else (revolution - Z.abs delta, negb (0 <? delta)).
Proof.
  unfold shortest_path, Qgt_bool, Qle_bool, revolution.
  cbn [inject_Z Qnum Qden Qdiv Qmult Qinv Pos.mul Z.mul].
  change (Z.pos (1 * 2)) with 2. change (2038 * 1 * 1) with 2038.
  destruct (Z.abs delta * 2 <=? 2038); reflexivity.
Qed.

(** For a signed count of at most one revolution either way, the count and
    direction chosen lead to the same position as the signed count. *)
Lemma shortest_path_destination (p delta : Z) :
  0 <= p < revolution -> Z.abs delta <= revolution ->
  let '(count, cw) := shortest_path delta in
  0 <= count /\ count * 2 <= revolution /\
  walk p (replicate (Z.to_nat count) cw) = (p + delta) mod revolution.
Proof.
  intros Hp Hd. rewrite shortest_path_unfold.
  destruct (Z.abs delta * 2 <=? revolution) eqn:E;
    [apply Z.leb_le in E | apply Z.leb_gt in E];
    (split; [unfold revolution in *; lia|]);
    (split; [unfold revolution in *; lia|]);
    rewrite walk_replicate by exact Hp;
    rewrite Z2Nat.id by (unfold revolution in *; lia).
  - destruct (0 <? delta) eqn:S; [apply Z.ltb_lt in S | apply Z.ltb_ge in S];
      f_equal; lia.
  - destruct (0 <? delta) eqn:S; [apply Z.ltb_lt in S | apply Z.ltb_ge in S];
      cbn [negb].
    + replace (p + -1 * (revolution - Z.abs delta))
        with (p + delta + (-1) * revolution) by lia.
      apply Z.mod_add. discriminate.
    + replace (p + 1 * (revolution - Z.abs delta))
        with (p + delta + 1 * revolution) by lia.
      apply Z.mod_add. discriminate.
Qed.

(** ** The signed step count and the accumulated error *)

Lemma target_range (trak : Q) :
  (0 <= trak < 360)%Q -> (0 <= target trak < inject_Z revolution)%Q.
Proof.
  unfold target. change steps_per_degree with (2038 # 360)%Q.
  change (inject_Z revolution) with 2038%Q. intros [H1 H2]. split; lra.
Qed.

(** Whatever the bearing and the position: the new error is smaller than one
    step, nothing is lost ([pos + delta + err' = target + err]), and the
    signed count leads to less than one step from the target. *)
Lemma track_delta_spec (trak : Q) (pos : Z) (err : Q) :
  (-1 < err < 1)%Q ->
  let '(delta, err') := track_delta trak pos err in
  (-1 < err' < 1)%Q /\
  (inject_Z (pos + delta) + err' == target trak + err)%Q /\
  (-1 < inject_Z (pos + delta) - target trak < 1)%Q.
Proof.
  intros [He1 He2]. unfold track_delta. fold (target trak).
  set (d := (target trak - inject_Z pos)%Q).
  set (t := py_int d).
  set (r := (d - inject_Z t)%Q).
  assert (Hr : ((0 <= d /\ 0 <= r < 1) \/ (d <= 0 /\ -1 < r <= 0))%Q).
  { destruct (Qlt_le_dec d 0) as [Hd|Hd].
    - right. split; [lra|]. apply py_int_remainder. lra.
    - left. split; [exact Hd|]. apply py_int_remainder. exact Hd. }
  assert (Hd : (d == target trak - inject_Z pos)%Q) by reflexivity.
  assert (Hrd : (r == d - inject_Z t)%Q) by reflexivity.
  clearbody d t r.
  destruct (Qle_bool 1 (Qabs (err + r))) eqn:E.
  - apply Qle_bool_iff in E.
    destruct (Qlt_le_dec (err + r) 0) as [Hs|Hs].
    + rewrite Qabs_neg in E by lra.
      assert (Hk : py_int (err + r) = -1).
      { apply py_int_unique_nonpos; [| |lia];
          change (inject_Z (-1)) with (-1)%Q; lra. }
      rewrite Hk. rewrite !inject_Z_plus.
      change (inject_Z (-1)) with (-1)%Q.
      repeat split; lra.
    + rewrite Qabs_pos in E by lra.
      assert (Hk : py_int (err + r) = 1).
      { apply py_int_unique_nonneg; [| |lia];
          change (inject_Z 1) with 1%Q; lra. }
      rewrite Hk. rewrite !inject_Z_plus.
      change (inject_Z 1) with 1%Q.
      repeat split; lra.
  - assert (E' : (Qabs (err + r) < 1)%Q).
    { apply Qnot_le_lt. intros H. apply Qle_bool_iff in H. congruence. }
    apply Qabs_Qlt_condition in E'.
    rewrite !inject_Z_plus. repeat split; lra.
Qed.

(** With the position and the bearing in range the signed count is at most
    one revolution either way. *)
Lemma track_delta_bound (trak : Q) (pos : Z) (err : Q) :
  (-1 < err < 1)%Q -> (0 <= trak < 360)%Q -> 0 <= pos < revolution ->
  Z.abs (fst (track_delta trak pos err)) <= revolution.
Proof.
  intros He Ht Hp.
  assert (H := track_delta_spec trak pos err He).
  destruct (track_delta trak pos err) as [delta err']. cbn [fst].
  destruct H as (_ & _ & H1 & H2).
  destruct (target_range trak Ht) as [T1 T2].
  assert (P1 : (0 <= inject_Z pos)%Q) by (rewrite <- (Zle_Qle 0); lia).
  assert (P2 : (inject_Z pos < inject_Z revolution)%Q)
    by (rewrite <- Zlt_Qlt; lia).
  rewrite inject_Z_plus in H1, H2.
  assert (- (revolution + 1) < delta).
  { apply inject_Z_lt_inv. rewrite inject_Z_opp, inject_Z_plus.
    change (inject_Z 1) with 1%Q. lra. }
  assert (delta < revolution + 1).
  { apply inject_Z_lt_inv. rewrite inject_Z_plus.
    change (inject_Z 1) with 1%Q. lra. }
  lia.
Qed.

Lemma plane_track_position (trak : Q) (w : world) :
  tracker_ok w -> (0 <= trak < 360)%Q ->
  position (plane_track trak w)
  = (position w + fst (track_delta trak (position w) (accumulated_error w)))
    mod revolution.
Proof.
  intros [Hp He] Ht.
  destruct (plane_track_frame trak w) as (_ & _ & _ & ->).
  assert (Hb := track_delta_bound trak (position w) (accumulated_error w)
                  He Ht Hp).
  assert (Hs := shortest_path_destination (position w) _ Hp Hb).
  destruct (shortest_path _) as [count cw]. apply Hs.
Qed.

Lemma plane_track_run (trak : Q) (w : world) (p : Z) (e : Q)
      (delta : Z) (err' : Q) (count : Z) (cw : bool) :
  position w = p -> accumulated_error w = e ->
  track_delta trak p e = (delta, err') ->
  shortest_path delta = (count, cw) ->
  trace (plane_track trak w) =
    trace w ++ replicate (Z.to_nat count) (Step cw) ++ [Off] /\
  position (plane_track trak w) = walk p (replicate (Z.to_nat count) cw) /\
  accumulated_error (plane_track trak w) = err'.
Proof.
  intros Hp He Hd Hs.
  destruct (plane_track_frame trak w) as (_ & H2 & H3 & H4).
  rewrite Hp, He, Hd in H2, H3, H4. cbn [fst snd] in H2, H3, H4.
  rewrite Hs in H3, H4. cbn [fst snd] in H3, H4. auto.
Qed.

(** ** The theorems about [plane_track] *)

(** C1. With the position in [0, revolution), the bearing in [0, 360) and the
    accumulated error in (-1, 1), the count [delta] that [plane_track] hands
    to [plane_rotate] after truncation, error fix, absolute value and
    shortest-path reduction satisfies [0 <= delta <= revolution/2], and the
    call makes exactly [delta] motor steps, all in one direction. *)
Theorem plane_track_at_most_half_revolution (trak : Q) (w : world) :
  0 <= position w < revolution ->
  (0 <= trak < 360)%Q ->
  (-1 < accumulated_error w < 1)%Q ->
  exists (delta : Z) (clockwise : bool),
    shortest_path
      (fst (track_delta trak (position w) (accumulated_error w)))
      = (delta, clockwise) /\
    0 <= delta /\ (inject_Z delta <= inject_Z revolution / 2)%Q /\
    trace (plane_track trak w) =
      trace w ++ replicate (Z.to_nat delta) (Step clockwise) ++ [Off].
Proof.
  intros Hp Ht He.
  assert (Hb := track_delta_bound trak (position w) (accumulated_error w)
                  He Ht Hp).
  destruct (plane_track_frame trak w) as (_ & _ & Htr & _).
  assert (Hs := shortest_path_destination (position w)
                  (fst (track_delta trak (position w) (accumulated_error w)))
                  Hp Hb).
  destruct (shortest_path _) as [delta cw]. cbn [fst snd] in Htr.
  destruct Hs as (H0 & H1 & _).
  exists delta, cw.
  split; [reflexivity|]. split; [exact H0|]. split; [|exact Htr].
  unfold Qle; cbn. change (Z.pos (1 * 2)) with 2. lia.
Qed.

Lemma plane_track_at_most_half_revolution_witness :
  let w := set_accumulated_error (1 # 2) (initial 0 17 ∅) in
  0 <= position w < revolution /\
  (0 <= 359 < 360)%Q /\
  (-1 < accumulated_error w < 1)%Q /\
  exists (delta : Z) (clockwise : bool),
    shortest_path (fst (track_delta 359 (position w) (accumulated_error w)))
      = (delta, clockwise) /\
    0 <= delta /\ (inject_Z delta <= inject_Z revolution / 2)%Q /\
    trace (plane_track 359 w) =
      trace w ++ replicate (Z.to_nat delta) (Step clockwise) ++ [Off].
Proof.
  cbn zeta.
  assert (H1 : 0 <= position (set_accumulated_error (1 # 2) (initial 0 17 ∅))
               < revolution) by (vm_compute; split; [discriminate | reflexivity]).
  assert (H2 : (0 <= 359 < 360)%Q) by (split; [discriminate | reflexivity]).
  assert (H3 : (-1 < accumulated_error
                       (set_accumulated_error (1 # 2) (initial 0 17 ∅)) < 1)%Q)
    by (split; reflexivity).
  split; [exact H1|]. split; [exact H2|]. split; [exact H3|].
  exact (plane_track_at_most_half_revolution 359 _ H1 H2 H3).
Defined.

(** C2. The accumulated error stays strictly inside (-1, 1): if it is there
    on entry it is there after [plane_track], whatever the bearing and the
    position, hence after every call of any sequence of calls. *)
Theorem accumulated_error_invariant (traks : list Q) (w : world) :
  (-1 < accumulated_error w < 1)%Q ->
  (forall trak,
     -1 < accumulated_error (plane_track trak w) < 1)%Q /\
  (-1 < accumulated_error (foldl (fun w trak => plane_track trak w) w traks)
      < 1)%Q.
Proof.
  assert (Hone : forall trak w,
             (-1 < accumulated_error w < 1)%Q ->
             (-1 < accumulated_error (plane_track trak w) < 1)%Q).
  { intros trak w0 He.
    destruct (plane_track_frame trak w0) as (_ & -> & _ & _).
    assert (H := track_delta_spec trak (position w0) (accumulated_error w0) He).
    destruct (track_delta _ _ _) as [delta err']. apply H. }
  intros He. split; [intros trak; now apply Hone|].
  revert w He. induction traks as [|t traks IH]; intros w He; [exact He|].
  simpl. apply IH. now apply Hone.
Qed.

Lemma accumulated_error_invariant_witness :
  let w := initial 0 5 ∅ in
  (-1 < accumulated_error w < 1)%Q /\
  (forall trak, -1 < accumulated_error (plane_track trak w) < 1)%Q /\
  (-1 < accumulated_error
          (foldl (fun w trak => plane_track trak w) w [1; 1; 200; 1 # 3]%Q)
      < 1)%Q.
Proof.
  cbn zeta.
  assert (H : (-1 < accumulated_error (initial 0 5 ∅) < 1)%Q)
    by (split; reflexivity).
  split; [exact H|].
  exact (accumulated_error_invariant [1; 1; 200; 1 # 3]%Q _ H).
Defined.



(** C6. With [revolution = 2038] and no accumulated error: from position 0,
    [plane_track 180] makes 1019 steps, clockwise, and leaves the position at
    1019; from position 1019, [plane_track 0] makes 1019 steps the other way
    and leaves the position at 0; and so does the second call when it follows
    the first. *)
Theorem half_turn_and_back (w : world) :
  revolution = 2038 /\
  (position w = 0 -> accumulated_error w = 0%Q ->
   trace (plane_track 180 w) = trace w ++ replicate 1019 (Step true) ++ [Off] /\
   position (plane_track 180 w) = 1019 /\
   trace (plane_track 0 (plane_track 180 w)) =
     trace (plane_track 180 w) ++ replicate 1019 (Step false) ++ [Off] /\
   position (plane_track 0 (plane_track 180 w)) = 0) /\
  (position w = 1019 -> accumulated_error w = 0%Q ->
   trace (plane_track 0 w) = trace w ++ replicate 1019 (Step false) ++ [Off] /\
   position (plane_track 0 w) = 0).
Proof.
  assert (D1 : track_delta 180 0 0 = (1019, (0 # 360)%Q)) by reflexivity.
  assert (D2 : track_delta 0 1019 (0 # 360) = (-1019, (0 # 129600)%Q))
    by reflexivity.
  assert (D3 : track_delta 0 1019 0 = (-1019, (0 # 360)%Q)) by reflexivity.
  assert (S1 : shortest_path 1019 = (1019, true)) by reflexivity.
  assert (S2 : shortest_path (-1019) = (1019, false)) by reflexivity.
  assert (W1 : walk 0 (replicate 1019 true) = 1019)
    by (vm_compute; reflexivity).
  assert (W2 : walk 1019 (replicate 1019 false) = 0)
    by (vm_compute; reflexivity).
  split; [reflexivity|]. split.
  - intros Hp He.
    destruct (plane_track_run 180 w 0 0 _ _ _ _ Hp He D1 S1) as (T1 & P1 & E1).
    change (Z.to_nat 1019) with 1019%nat in T1, P1.
    rewrite W1 in P1.
    destruct (plane_track_run 0 (plane_track 180 w) _ _ _ _ _ _ P1 E1 D2 S2)
      as (T2 & P2 & _).
    change (Z.to_nat 1019) with 1019%nat in T2, P2.
    rewrite W2 in P2. auto.
  - intros Hp He.
    destruct (plane_track_run 0 w 1019 0 _ _ _ _ Hp He D3 S2) as (T1 & P1 & _).
    change (Z.to_nat 1019) with 1019%nat in T1, P1.
    rewrite W2 in P1. auto.
Qed.

Lemma half_turn_and_back_witness :
  position (initial 0 0 ∅) = 0 /\ accumulated_error (initial 0 0 ∅) = 0%Q /\
  position (plane_track 180 (initial 0 0 ∅)) = 1019 /\
  position (plane_track 0 (plane_track 180 (initial 0 0 ∅))) = 0 /\
  position (initial 0 1019 ∅) = 1019 /\
  position (plane_track 0 (initial 0 1019 ∅)) = 0.
Proof.
  destruct (half_turn_and_back (initial 0 0 ∅)) as (_ & A & _).
  destruct (half_turn_and_back (initial 0 1019 ∅)) as (_ & _ & B).
  destruct (A eq_refl eq_refl) as (_ & A2 & _ & A4).
  destruct (B eq_refl eq_refl) as (_ & B2).
  repeat split; assumption.
Defined.

(** C8. Whatever the current phase index, one [motor_step] moves it to
    [(current_step + 1) mod 4] when clockwise and [(current_step - 1) mod 4]
    otherwise, the index stays in [0, 4), and the coils are set to the entry
    of the four-phase sequence (1,1,0,0), (0,1,1,0), (0,0,1,1), (1,0,0,1) at
    that index, which is [seq] at that index. *)
Theorem motor_step_phase (clockwise : bool) (w : world) :
  let i := (if clockwise then current_step w + 1 else current_step w - 1) mod 4 in
  current_step (motor_step clockwise w) = i /\
  0 <= i < 4 /\
  canonical_phase i = Some (coils (motor_step clockwise w)) /\
  seq !! Z.to_nat i = Some (coils (motor_step clockwise w)).
Proof.
  cbn zeta. rewrite motor_step_unfold. cbn [current_step coils].
  change steps with 4.
  set (i := (if clockwise then current_step w + 1 else current_step w - 1) mod 4).
  assert (Hi : 0 <= i < 4) by (apply Z.mod_pos_bound; reflexivity).
  split; [reflexivity|]. split; [exact Hi|]. split.
  - assert (Hc : i = 0 \/ i = 1 \/ i = 2 \/ i = 3) by lia.
    destruct Hc as [-> | [-> | [-> | ->]]]; reflexivity.
  - apply (seq_at_in_range
             (if clockwise then current_step w + 1 else current_step w - 1)).
Qed.

(** ** What each function leaves alone *)

Lemma strip_frame_refl (w : world) : strip_frame w w.
Proof. repeat split. Qed.

Lemma strip_frame_trans (w1 w2 w3 : world) :
  strip_frame w1 w2 -> strip_frame w2 w3 -> strip_frame w1 w3.
Proof.
  unfold strip_frame.
  intros (A1 & A2 & A3 & A4 & A5 & A6 & A7) (B1 & B2 & B3 & B4 & B5 & B6 & B7).
  repeat split; congruence.
Qed.

Lemma strip_set_frame (i : Z) (c : colour) (w : world) :
  strip_frame w (strip_set i c w).
Proof. repeat split. Qed.

Lemma strip_show_frame (w : world) : strip_frame w (strip_show w).
Proof. repeat split. Qed.

Lemma strip_frame_foldl {A : Type} (f : world -> A -> world) (l : list A) :
  (forall w a, strip_frame w (f w a)) ->
  forall w, strip_frame w (foldl f w l).
Proof.
  intros Hf. induction l as [|a l IH]; intros w; [apply strip_frame_refl|].
  simpl. eapply strip_frame_trans; [apply Hf | apply IH].
Qed.

Lemma strip_clear_frame (w : world) : strip_frame w (strip_clear w).
Proof.
  unfold strip_clear. apply strip_frame_foldl.
  intros w0 a. apply strip_set_frame.
Qed.

Lemma blank_frame (w : world) : strip_frame w (blank w).
Proof.
  unfold blank. eapply strip_frame_trans;
    [apply strip_clear_frame | apply strip_show_frame].
Qed.

Lemma strip_spin_frame (w : world) : strip_frame w (strip_spin w).
Proof.
  unfold strip_spin.
  eapply strip_frame_trans; [apply blank_frame|].
  eapply strip_frame_trans; [|apply blank_frame].
  apply strip_frame_foldl. intros w0 n.
  eapply strip_frame_trans; [|apply strip_show_frame].
  eapply strip_frame_trans; [|apply strip_set_frame].
  destruct (0 <? Z.of_nat n); [apply strip_set_frame | apply strip_frame_refl].
Qed.

Lemma calibrate_strip_poll_iter (n : nat) (i : Z) (w : world) :
  0 <= i < LED_COUNT ->
  0 <= fst (Nat.iter n calibrate_strip_poll (i, w)) < LED_COUNT /\
  strip_frame w (snd (Nat.iter n calibrate_strip_poll (i, w))).
Proof.
  intros Hi. induction n as [|n IH].
  - simpl. split; [exact Hi | apply strip_frame_refl].
  - rewrite Nat.iter_succ.
    destruct (Nat.iter n calibrate_strip_poll (i, w)) as [i1 w1].
    cbn [fst snd] in *. destruct IH as [IH1 IH2].
    unfold calibrate_strip_poll. cbn [fst snd]. split.
    + apply Z.mod_pos_bound. reflexivity.
    + eapply strip_frame_trans; [exact IH2|].
      eapply strip_frame_trans; [apply strip_set_frame|].
      eapply strip_frame_trans; [apply strip_set_frame|].
      apply strip_show_frame.
Qed.

(** [calibrate_strip] returns a cell of the ring and touches the ring only. *)
Lemma calibrate_strip_spec (highs : nat) (w : world) :
  0 <= fst (calibrate_strip highs w) < LED_COUNT /\
  strip_frame (log CalibrateStrip w) (snd (calibrate_strip highs w)).
Proof.
  unfold calibrate_strip.
  set (w1 := strip_show (strip_set 0 _ (strip_show (strip_clear _)))).
  assert (H1 : strip_frame (log CalibrateStrip w) w1).
  { unfold w1.
    eapply strip_frame_trans; [apply blank_frame|].
    eapply strip_frame_trans; [apply strip_set_frame | apply strip_show_frame]. }
  destruct (calibrate_strip_poll_iter highs 0 w1) as [H2 H3];
    [split; [lia | reflexivity]|].
  destruct (Nat.iter highs calibrate_strip_poll (0, w1)) as [i w2].
  cbn [fst snd] in *. split; [exact H2|].
  eapply strip_frame_trans; [exact H1|].
  eapply strip_frame_trans; [exact H3|].
  eapply strip_frame_trans; [apply strip_set_frame | apply strip_show_frame].
Qed.

Lemma steps_in_app (l1 l2 : list event) :
  steps_in (l1 ++ l2) = steps_in l1 ++ steps_in l2.
Proof. unfold steps_in. apply omap_app. Qed.

Lemma steps_in_replicate (n : nat) (cw : bool) :
  steps_in (replicate n (Step cw)) = replicate n cw.
Proof. induction n as [|n IH]; [reflexivity|]. simpl. now rewrite <- IH. Qed.














(** ** The LED ring *)

Lemma strip_foldl_set (c : colour) (l : list nat) (w : world) :
  strip (foldl (fun w i => strip_set (Z.of_nat i) c w) w l) =
  foldl (fun s i => <[i := c]> s) (strip w) l.
Proof.
  revert w. induction l as [|i l IH]; intros w; [reflexivity|].
  simpl. rewrite IH. unfold strip_set. cbn [strip set_strip].
  now rewrite Nat2Z.id.
Qed.

Lemma foldl_insert_all (c : colour) (s pre : list colour) :
  foldl (fun s i => <[i := c]> s) (pre ++ s)
        (List.seq (length pre) (length s))
  = pre ++ replicate (length s) c.
Proof.
  revert pre. induction s as [|x s IH]; intros pre; [reflexivity|].
  simpl. rewrite insert_app_r_alt by lia. rewrite Nat.sub_diag. simpl.
  replace (pre ++ c :: s) with ((pre ++ [c]) ++ s) by now rewrite <- app_assoc.
  replace (S (length pre)) with (length (pre ++ [c]))
    by (rewrite length_app; simpl; lia).
  rewrite IH. now rewrite <- app_assoc.
Qed.

Lemma strip_clear_strip (w : world) :
  length (strip w) = Z.to_nat LED_COUNT ->
  strip (strip_clear w) = replicate (Z.to_nat LED_COUNT) (0, 0, 0).
Proof.
  intros H. unfold strip_clear. rewrite strip_foldl_set, <- H.
  apply (foldl_insert_all (0, 0, 0) (strip w) []).
Qed.

Lemma save_position_frame (w : world) :
  north (save_position w) = north w /\
  position (save_position w) = position w /\
  accumulated_error (save_position w) = accumulated_error w /\
  strip (save_position w) = strip w /\ leds (save_position w) = leds w /\
  trace (save_position w) = trace w ++ [Saved (north w) (position w)].
Proof. repeat split. Qed.

Lemma strip_show_leds (w : world) : leds (strip_show w) = strip w.
Proof. reflexivity. Qed.

Lemma strip_set_strip (i : Z) (c : colour) (w : world) :
  strip (strip_set i c w) = <[Z.to_nat i := c]> (strip w).
Proof. reflexivity. Qed.

Lemma spotted_leds (bearing trak : Q) (w : world) :
  length (strip w) = Z.to_nat LED_COUNT ->
  leds (spotted bearing trak w) =
  <[Z.to_nat ((north w + py_int (inject_Z LED_COUNT * bearing / 360))
              mod LED_COUNT) := (0, led_intensity, 0)]>
    (replicate (Z.to_nat LED_COUNT) (0, 0, 0)).
Proof.
  intros H. unfold spotted.
  match goal with |- leds (save_position ?x) = _ =>
    destruct (save_position_frame x) as (_ & _ & _ & _ & -> & _) end.
  match goal with |- leds (plane_track ?t ?x) = _ =>
    destruct (plane_track_frame t x) as ((_ & _ & -> & _) & _) end.
  rewrite strip_show_leds, strip_set_strip, (strip_clear_strip w H).
  destruct (strip_clear_frame w) as (-> & _). reflexivity.
Qed.

(** C3, as stated, fails: for bearing 10 and north cell 0 the rounded cell is
    1, [spotted] leaves cell 1 dark and lights cell 0. *)
Lemma spotted_does_not_round :
  let w := initial 0 0 ∅ in
  (north w + round_nearest (inject_Z LED_COUNT * 10 / 360)) mod LED_COUNT = 1 /\
  leds (spotted 10 0 w) !! 1%nat = Some (0, 0, 0) /\
  leds (spotted 10 0 w) !! 0%nat = Some (0, led_intensity, 0).
Proof. vm_compute. repeat split. Qed.

(** C3, amended.  On a ring of [LED_COUNT] pixels, [spotted] shows exactly one
    lit cell, at index
    [(north + int(LED_COUNT * bearing / 360)) mod LED_COUNT], where [int]
    truncates toward zero (for a bearing in [0, 360): rounds down); every
    other cell is cleared. *)
Theorem spotted_lights_one_cell (bearing trak : Q) (w : world) :
  length (strip w) = Z.to_nat LED_COUNT ->
  (0 <= bearing < 360)%Q ->
  0 <= north w < LED_COUNT ->
  let n := py_int (inject_Z LED_COUNT * bearing / 360) in
  let cell := (north w + n) mod LED_COUNT in
  (inject_Z n <= inject_Z LED_COUNT * bearing / 360 < inject_Z n + 1)%Q /\
  0 <= cell < LED_COUNT /\
  length (leds (spotted bearing trak w)) = Z.to_nat LED_COUNT /\
  forall j : Z,
    0 <= j < LED_COUNT ->
    leds (spotted bearing trak w) !! Z.to_nat j =
      Some (if j =? cell then (0, led_intensity, 0) else (0, 0, 0)).
Proof.
  intros Hlen Hb Hn. cbn zeta.
  set (n := py_int (inject_Z LED_COUNT * bearing / 360)).
  set (cell := (north w + n) mod LED_COUNT).
  assert (Hcell : 0 <= cell < LED_COUNT)
    by (apply Z.mod_pos_bound; reflexivity).
  split; [|split; [exact Hcell|]].
  - apply py_int_nonneg. change (inject_Z LED_COUNT) with 24%Q.
    destruct Hb as [Hb _]. unfold Qdiv.
    apply Qmult_le_0_compat; [|discriminate].
    apply Qmult_le_0_compat; [discriminate | exact Hb].
  - rewrite (spotted_leds bearing trak w Hlen). fold n. fold cell.
    split; [now rewrite length_insert, length_replicate|].
    intros j Hj. destruct (j =? cell) eqn:E.
    + apply Z.eqb_eq in E. subst j.
      apply list_lookup_insert_eq. rewrite length_replicate.
      unfold LED_COUNT in *. lia.
    + apply Z.eqb_neq in E.
      rewrite list_lookup_insert_ne by lia.
      apply lookup_replicate_2. unfold LED_COUNT in *. lia.
Qed.

Lemma spotted_lights_one_cell_witness :
  let w := initial 3 0 ∅ in
  length (strip w) = Z.to_nat LED_COUNT /\
  (0 <= 100 < 360)%Q /\
  0 <= north w < LED_COUNT /\
  leds (spotted 100 0 w) !! Z.to_nat 9 = Some (0, led_intensity, 0) /\
  leds (spotted 100 0 w) !! Z.to_nat 10 = Some (0, 0, 0).
Proof.
  cbn zeta.
  assert (H1 : length (strip (initial 3 0 ∅)) = Z.to_nat LED_COUNT)
    by reflexivity.
  assert (H2 : (0 <= 100 < 360)%Q) by (split; [discriminate | reflexivity]).
  assert (H3 : 0 <= north (initial 3 0 ∅) < LED_COUNT)
    by (vm_compute; split; [discriminate | reflexivity]).
  destruct (spotted_lights_one_cell 100 0 _ H1 H2 H3) as (_ & _ & _ & H).
  split; [exact H1|]. split; [exact H2|]. split; [exact H3|].
  split.
  - exact (H 9 ltac:(vm_compute; split; [discriminate | reflexivity])).
  - exact (H 10 ltac:(vm_compute; split; [discriminate | reflexivity])).
Defined.

(** ** The state file *)

Lemma save_position_states (w : world) :
  fs_states (disk w) (save_position_ops w) =
  let lines := [Assign "north" (north w); Assign "position" (position w)] in
  [ disk w;
    <[state_file := []]> (disk w);
    <[state_file := lines]> (disk w);
    <[state_file := lines]> (disk w) ].
Proof.
  unfold save_position_ops. cbn [fs_states fs_step].
  rewrite lookup_insert_eq, insert_insert_eq. reflexivity.
Qed.

Lemma save_position_disk (w : world) :
  disk (save_position w) =
  <[state_file := [Assign "north" (north w); Assign "position" (position w)]]>
    (disk w).
Proof.
  unfold save_position, save_position_ops.
  cbn [disk log set_disk foldl fs_step].
  rewrite lookup_insert_eq, insert_insert_eq. reflexivity.
Qed.

Lemma load_position_insert (n p : Z) (d : gmap string (list line)) :
  load_position (<[state_file := [Assign "north" n; Assign "position" p]]> d)
  = Some (n, p).
Proof. unfold load_position. rewrite lookup_insert_eq. reflexivity. Qed.

Lemma calibrate_plane_frame (highs : nat) (w : world) :
  motor_frame w (calibrate_plane highs w) /\
  exists evs : list event,
    trace (calibrate_plane highs w) = trace w ++ CalibratePlane :: evs.
Proof.
  unfold calibrate_plane. induction highs as [|n IH].
  - split; [repeat split|]. exists []. reflexivity.
  - rewrite Nat.iter_succ.
    destruct IH as ((A1 & A2 & A3 & A4) & evs & T).
    destruct (plane_rotate_frame 4 true
                (Nat.iter n (plane_rotate 4 true) (log CalibratePlane w)))
      as ((B1 & B2 & B3 & B4) & _ & T' & _).
    split; [unfold motor_frame; repeat split; congruence|].
    eexists. rewrite T', T, <- app_assoc. reflexivity.
Qed.

Lemma spotted_saves (bearing trak : Q) (w : world) :
  north (spotted bearing trak w) = north w /\
  load_position (disk (spotted bearing trak w)) =
    Some (north w, position (spotted bearing trak w)) /\
  exists (n : nat) (cw : bool),
    trace (spotted bearing trak w) =
    trace w ++ replicate n (Step cw)
            ++ [Off; Saved (north w) (position (spotted bearing trak w))].
Proof.
  unfold spotted.
  set (x := strip_show (strip_set _ _ (strip_clear w))).
  assert (Hx : strip_frame w x).
  { unfold x. eapply strip_frame_trans; [apply strip_clear_frame|].
    eapply strip_frame_trans; [apply strip_set_frame | apply strip_show_frame]. }
  destruct Hx as (N & _ & _ & _ & _ & _ & T).
  destruct (plane_track_frame trak x) as ((N' & _) & _ & T' & _).
  cbn zeta in T'.
  destruct (save_position_frame (plane_track trak x))
    as (N'' & P'' & _ & _ & _ & T'').
  rewrite N'', N', N. split; [reflexivity|]. split.
  - rewrite save_position_disk, P'', N', N. apply load_position_insert.
  - eexists _, _. rewrite T'', T', T, P'', N', N, <- !app_assoc. reflexivity.
Qed.

Lemma startup_calibrated (o : operator) (w : world) :
  north w <> -1 -> strip_frame w (startup o w).
Proof.
  intros H. unfold startup.
  assert (S := strip_spin_frame w).
  destruct S as (N & S). rewrite N.
  destruct (north w =? -1) eqn:E; [apply Z.eqb_eq in E; contradiction|].
  eapply strip_frame_trans; [exact (conj N S)|].
  eapply strip_frame_trans; [apply blank_frame | apply blank_frame].
Qed.

Lemma startup_calibrating (o : operator) (w : world) :
  north w = -1 ->
  0 <= north (startup o w) < LED_COUNT /\
  position (startup o w) = 0 /\
  disk (startup o w) =
    <[state_file := [Assign "north" (north (startup o w)); Assign "position" 0]]>
      (disk w) /\
  exists evs : list event,
    trace (startup o w) =
    trace w ++ CalibrateStrip :: CalibratePlane :: evs
            ++ [Saved (north (startup o w)) 0].
Proof.
  intros H. unfold startup.
  destruct (strip_spin_frame w) as (N0 & _ & _ & _ & _ & D0 & T0).
  rewrite N0, H. cbn [Z.eqb Pos.eqb].
  destruct (calibrate_strip_spec (strip_highs o) (strip_spin w))
    as (Hi & (_ & _ & _ & _ & _ & D1 & T1)).
  destruct (calibrate_strip (strip_highs o) (strip_spin w)) as [i w1].
  cbn [fst snd] in Hi, D1, T1.
  destruct (calibrate_plane_frame (plane_highs o) (set_north i w1))
    as ((N3 & _ & _ & D3) & evs & T3).
  set (w3 := calibrate_plane (plane_highs o) (set_north i w1)) in *.
  set (w5 := save_position (set_position 0 w3)).
  assert (F : strip_frame w5 (blank (strip_show (strip_clear w5)))).
  { eapply strip_frame_trans; [apply blank_frame | apply blank_frame]. }
  destruct F as (-> & -> & _ & _ & _ & -> & ->).
  unfold w5. rewrite save_position_disk.
  destruct (save_position_frame (set_position 0 w3))
    as (-> & -> & _ & _ & _ & ->).
  cbn [north position disk trace set_position set_north log] in *.
  rewrite N3, D3, D1, D0, T3, T1, T0.
  split; [exact Hi|]. split; [reflexivity|]. split; [reflexivity|].
  exists evs. rewrite <- !app_assoc. reflexivity.
Qed.

(** C4, as stated, fails: [save_position] writes in place.  With
    [north = 3, position = 7] on disk and [position = 8] to save, a reader can
    see the file empty, which is neither the old content nor the new one; and
    every call is on planes_position.py itself. *)
Lemma save_position_not_atomic :
  let old := [Assign "north" 3; Assign "position" 7] in
  let w := initial 3 8 {[ state_file := old ]} in
  ~ never_torn state_file (disk w) (save_position_ops w) /\
  fs_states (disk w) (save_position_ops w) !! 1%nat
    = Some (<[state_file := []]> (disk w)) /\
  Forall (fun op => fs_path op = state_file) (save_position_ops w).
Proof.
  cbn zeta. split; [|split].
  - intros H.
    destruct (H (<[state_file := []]>
                   {[ state_file := [Assign "north" 3; Assign "position" 7] ]}))
      as [E|E].
    + right. left. reflexivity.
    + vm_compute in E. discriminate.
    + vm_compute in E. discriminate.
  - reflexivity.
  - repeat constructor.
Qed.

(** C4, amended.  [save_position] writes both integers into
    planes_position.py in place: every call it makes is on that file, it
    empties the file first and then writes the two lines, no other file is
    written; once it has returned the file holds [north] and [position] and
    [load_position] reads them back.  [spotted] calls it right after the move
    of [plane_track], and the start-up code calls it after the two
    calibrations. *)
Theorem save_position_in_place (w : world) :
  Forall (fun op => fs_path op = state_file) (save_position_ops w) /\
  (forall (p : string) (d' : gmap string (list line)),
     p <> state_file ->
     In d' (fs_states (disk w) (save_position_ops w)) ->
     d' !! p = disk w !! p) /\
  fs_states (disk w) (save_position_ops w) !! 1%nat
    = Some (<[state_file := []]> (disk w)) /\
  disk (save_position w) !! state_file
    = Some [Assign "north" (north w); Assign "position" (position w)] /\
  load_position (disk (save_position w)) = Some (north w, position w) /\
  (forall bearing trak : Q,
     load_position (disk (spotted bearing trak w)) =
       Some (north w, position (spotted bearing trak w)) /\
     exists (n : nat) (cw : bool),
       trace (spotted bearing trak w) =
       trace w ++ replicate n (Step cw)
               ++ [Off; Saved (north w) (position (spotted bearing trak w))]) /\
  (forall o : operator,
     north w = -1 ->
     load_position (disk (startup o w)) = Some (north (startup o w), 0) /\
     exists evs : list event,
       trace (startup o w) =
       trace w ++ CalibrateStrip :: CalibratePlane :: evs
               ++ [Saved (north (startup o w)) 0]).
Proof.
  split; [repeat constructor|].
  split.
  { intros p d' Hp Hin. rewrite save_position_states in Hin. cbn zeta in Hin.
    destruct Hin as [<- | [<- | [<- | [<- | []]]]];
      rewrite ?lookup_insert_ne by congruence; reflexivity. }
  split; [reflexivity|].
  split; [rewrite save_position_disk; apply lookup_insert_eq|].
  split; [rewrite save_position_disk; apply load_position_insert|].
  split.
  - intros bearing trak. apply spotted_saves.
  - intros o H. destruct (startup_calibrating o w H) as (_ & _ & D & T).
    split; [|exact T]. rewrite D. apply load_position_insert.
Qed.

Lemma save_position_in_place_witness :
  let w := initial (-1) 17 ∅ in
  let o := Operator 5 2 in
  north w = -1 /\
  load_position (disk (startup o w)) = Some (5, 0) /\
  load_position (disk (save_position w)) = Some (-1, 17).
Proof.
  cbn zeta.
  destruct (save_position_in_place (initial (-1) 17 ∅))
    as (_ & _ & _ & _ & L & _ & S).
  destruct (S (Operator 5 2) eq_refl) as (L' & _).
  split; [reflexivity|]. split; [|exact L].
  rewrite L'. vm_compute. reflexivity.
Defined.

(** C9. The start-up code runs [calibrate_strip] and [calibrate_plane] if and
    only if the loaded [north] is -1.  When it does, the cell chosen and
    position 0 are in the state file afterwards, and a start from the values
    loaded from that file runs no calibration.  When [north] is anything
    else, no calibration runs and north, position and the file are as they
    were. *)
Theorem startup_calibrates_iff_uncalibrated (o : operator) (w : world) :
  (exists evs : list event,
     trace (startup o w) = trace w ++ evs /\
     (In CalibrateStrip evs <-> north w = -1) /\
     (In CalibratePlane evs <-> north w = -1)) /\
  (north w = -1 ->
   0 <= north (startup o w) < LED_COUNT /\
   position (startup o w) = 0 /\
   load_position (disk (startup o w)) = Some (north (startup o w), 0) /\
   forall (o' : operator) (w' : world),
     load_position (disk (startup o w)) = Some (north w', position w') ->
     trace (startup o' w') = trace w' /\
     north (startup o' w') = north w' /\
     position (startup o' w') = position w') /\
  (north w <> -1 ->
   trace (startup o w) = trace w /\ north (startup o w) = north w /\
   position (startup o w) = position w /\ disk (startup o w) = disk w).
Proof.
  split; [|split].
  - destruct (Z.eq_dec (north w) (-1)) as [H|H].
    + destruct (startup_calibrating o w H) as (_ & _ & _ & evs & T).
      eexists. split; [exact T|]. split; split; intros _; try exact H.
      * left. reflexivity.
      * right. left. reflexivity.
    + destruct (startup_calibrated o w H) as (_ & _ & _ & _ & _ & _ & T).
      exists []. split; [now rewrite app_nil_r|].
      split; split; intros H'; (contradiction || destruct H').
  - intros H. destruct (startup_calibrating o w H) as (Hi & P & D & _).
    split; [exact Hi|]. split; [exact P|].
    assert (L : load_position (disk (startup o w))
                = Some (north (startup o w), 0))
      by (rewrite D; apply load_position_insert).
    split; [exact L|].
    intros o' w' L'. rewrite L in L'.
    assert (Hn : north (startup o w) = north w') by congruence.
    assert (Hne : north w' <> -1) by lia.
    destruct (startup_calibrated o' w' Hne) as (N & P' & _ & _ & _ & _ & T).
    auto.
  - intros H.
    destruct (startup_calibrated o w H) as (N & P & _ & _ & _ & D & T). auto.
Qed.

Lemma startup_calibrates_iff_uncalibrated_witness :
  let w := initial (-1) 17 ∅ in
  let o := Operator 5 2 in
  north w = -1 /\
  north (startup o w) = 5 /\
  position (startup o w) = 0 /\
  load_position (disk (startup o w)) = Some (5, 0) /\
  trace (startup o (initial 5 0 (disk (startup o w)))) = [].
Proof.
  cbn zeta.
  destruct (startup_calibrates_iff_uncalibrated (Operator 5 2)
              (initial (-1) 17 ∅)) as (_ & A & _).
  destruct (A eq_refl) as (_ & P & L & R).
  assert (N : north (startup (Operator 5 2) (initial (-1) 17 ∅)) = 5)
    by (vm_compute; reflexivity).
  rewrite N in L.
  split; [reflexivity|]. split; [exact N|]. split; [exact P|].
  split; [exact L|].
  exact (proj1 (R (Operator 5 2)
                  (initial 5 0 (disk (startup (Operator 5 2)
                                              (initial (-1) 17 ∅)))) L)).
Defined.

(** ** Tracking one bearing again and again *)

(** One call, from any state the script tracks from, ends less than one step
    from the place the bearing asks for. *)
Lemma plane_track_arrives (trak : Q) (w : world) :
  tracker_ok w -> (0 <= trak < 360)%Q ->
  tracker_ok (plane_track trak w) /\
  within_one_step (position (plane_track trak w)) (target trak).
Proof.
  intros Hok Ht. assert (Hpos := plane_track_position trak w Hok Ht).
  destruct Hok as [Hp He].
  destruct (plane_track_frame trak w) as (_ & Hacc & _ & _).
  assert (H := track_delta_spec trak (position w) (accumulated_error w) He).
  destruct (track_delta trak (position w) (accumulated_error w))
    as [delta err'].
  cbn [fst snd] in *. destruct H as (He' & _ & Hnear).
  split; [split|].
  - rewrite Hpos. apply Z.mod_pos_bound. reflexivity.
  - rewrite Hacc. exact He'.
  - exists ((position w + delta) / revolution). rewrite Hpos.
    replace ((position w + delta) mod revolution
             + (position w + delta) / revolution * revolution)
      with (position w + delta).
    + apply Qabs_Qlt_condition. exact Hnear.
    + rewrite (Z.div_mod (position w + delta) revolution) at 1
        by discriminate. lia.
Qed.

(** From less than one step away, a call makes no step or one step. *)
Lemma plane_track_settled (trak : Q) (w : world) :
  tracker_ok w -> (0 <= trak < 360)%Q ->
  within_one_step (position w) (target trak) ->
  exists (n : nat) (cw : bool),
    (n <= 1)%nat /\
    trace (plane_track trak w) = trace w ++ replicate n (Step cw) ++ [Off].
Proof.
  intros [Hp He] Ht [k Hk].
  destruct (plane_track_frame trak w) as (_ & _ & Htr & _).
  assert (Hb := track_delta_bound trak (position w) (accumulated_error w)
                  He Ht Hp).
  assert (H := track_delta_spec trak (position w) (accumulated_error w) He).
  destruct (track_delta trak (position w) (accumulated_error w))
    as [delta err'].
  cbn [fst snd] in *. destruct H as (_ & _ & Hnear).
  destruct (target_range trak Ht) as [T1 T2].
  apply Qabs_Qlt_condition in Hk.
  set (a := position w + delta) in *.
  set (b := position w + k * revolution) in *.
  assert (Hab1 : a < b + 2).
  { apply inject_Z_lt_inv. rewrite inject_Z_plus.
    change (inject_Z 2) with 2%Q. lra. }
  assert (Hab2 : b < a + 2).
  { apply inject_Z_lt_inv. rewrite inject_Z_plus.
    change (inject_Z 2) with 2%Q. lra. }
  assert (Hb1 : -1 < b).
  { apply inject_Z_lt_inv. change (inject_Z (-1)) with (-1)%Q. lra. }
  assert (Hb2 : b < revolution + 1).
  { apply inject_Z_lt_inv. rewrite inject_Z_plus.
    change (inject_Z 1) with 1%Q. lra. }
  unfold a, b in *. clear a b.
  rewrite shortest_path_unfold in Htr. unfold revolution in *.
  assert (Hk01 : k = 0 \/ k = 1) by lia.
  destruct (Z.abs delta * 2 <=? 2038) eqn:E;
    [apply Z.leb_le in E | apply Z.leb_gt in E]; cbn [fst snd] in Htr.
  - exists (Z.to_nat (Z.abs delta)), (0 <? delta).
    split; [lia | exact Htr].
  - exists (Z.to_nat (2038 - Z.abs delta)), (negb (0 <? delta)).
    split; [lia | exact Htr].
Qed.

(** C5, as stated, fails in its last part: tracking bearing 1 from position
    5 with no accumulated error, the position is 5 after the first call, 6
    after the second and 5 again after the sixth. *)
Lemma tracking_oscillates :
  let pos := fun n => position (Nat.iter n (plane_track 1) (initial 0 5 ∅)) in
  pos 1%nat = 5 /\ pos 2%nat = 6 /\ pos 6%nat = 5 /\
  returns_to_a_left_position pos.
Proof.
  cbn zeta.
  assert (H1 : position (Nat.iter 1 (plane_track 1) (initial 0 5 ∅)) = 5)
    by (vm_compute; reflexivity).
  assert (H2 : position (Nat.iter 2 (plane_track 1) (initial 0 5 ∅)) = 6)
    by (vm_compute; reflexivity).
  assert (H6 : position (Nat.iter 6 (plane_track 1) (initial 0 5 ∅)) = 5)
    by (vm_compute; reflexivity).
  split; [exact H1|]. split; [exact H2|]. split; [exact H6|].
  exists 1%nat, 2%nat, 6%nat.
  split; [lia|]. split; [lia|]. rewrite H1, H2, H6. split; [lia | reflexivity].
Qed.

(** C5, amended.  For a fixed bearing in [0, 360) and any state with the
    position in [0, revolution) and the error in (-1, 1): after the first
    call of [plane_track] and after every later call with the same bearing
    the position is less than one step from [bearing * steps_per_degree]
    (modulo [revolution]), and every later call makes no step or one step.
    (The position may go back and forth between the two positions next to
    the target.) *)
Theorem tracking_settles (trak : Q) (w : world) (n : nat) :
  0 <= position w < revolution ->
  (-1 < accumulated_error w < 1)%Q ->
  (0 <= trak < 360)%Q ->
  let w' := Nat.iter n (plane_track trak) (plane_track trak w) in
  within_one_step (position w') (trak * steps_per_degree) /\
  0 <= position w' < revolution /\
  (-1 < accumulated_error w' < 1)%Q /\
  exists (m : nat) (cw : bool),
    (m <= 1)%nat /\
    trace (plane_track trak w') = trace w' ++ replicate m (Step cw) ++ [Off].
Proof.
  intros Hp He Ht. cbn zeta.
  assert (Hinv : tracker_ok (Nat.iter n (plane_track trak) (plane_track trak w))
                 /\ within_one_step
                      (position (Nat.iter n (plane_track trak)
                                          (plane_track trak w)))
                      (target trak)).
  { induction n as [|n IH].
    - simpl. apply plane_track_arrives; [split; assumption | exact Ht].
    - rewrite Nat.iter_succ. destruct IH as [IH _].
      apply plane_track_arrives; assumption. }
  destruct Hinv as [[Hp' He'] Hnear].
  split; [exact Hnear|]. split; [exact Hp'|]. split; [exact He'|].
  apply plane_track_settled; [split; assumption | exact Ht | exact Hnear].
Qed.

Lemma tracking_settles_witness :
  let w := initial 0 5 ∅ in
  0 <= position w < revolution /\
  (-1 < accumulated_error w < 1)%Q /\
  (0 <= 1 < 360)%Q /\
  within_one_step (position (Nat.iter 5 (plane_track 1) (plane_track 1 w)))
                  (1 * steps_per_degree).
Proof.
  cbn zeta.
  assert (H1 : 0 <= position (initial 0 5 ∅) < revolution)
    by (vm_compute; split; [discriminate | reflexivity]).
  assert (H2 : (-1 < accumulated_error (initial 0 5 ∅) < 1)%Q)
    by (split; reflexivity).
  assert (H3 : (0 <= 1 < 360)%Q) by (split; [discriminate | reflexivity]).
  split; [exact H1|]. split; [exact H2|]. split; [exact H3|].
  exact (proj1 (tracking_settles 1 (initial 0 5 ∅) 5 H1 H2 H3)).
Defined.

(** * Further properties of the script *)

(** ** The motor *)

Lemma phase_walk_app (c : Z) (l1 l2 : list bool) :
  phase_walk c (l1 ++ l2) = phase_walk (phase_walk c l1) l2.
Proof. unfold phase_walk. apply foldl_app. Qed.

Lemma phase_walk_replicate (c : Z) (n : nat) (cw : bool) :
  0 <= c < steps ->
  phase_walk c (replicate n cw) =
  (c + (if cw then 1 else -1) * Z.of_nat n) mod steps.
Proof.
  intros Hc. induction n as [|n IH].
  - simpl. rewrite Z.mul_0_r, Z.add_0_r. symmetry. now apply Z.mod_small.
  - replace (S n) with (n + 1)%nat by lia.
    rewrite replicate_add, phase_walk_app, IH. simpl.
    destruct cw.
    + rewrite Z.add_mod_idemp_l by discriminate. f_equal. lia.
    + rewrite Zminus_mod_idemp_l. f_equal. lia.
Qed.

Lemma iter_motor_step_phase (n : nat) (cw : bool) (w : world) :
  current_step (Nat.iter n (motor_step cw) w) =
  phase_walk (current_step w) (replicate n cw).
Proof.
  induction n as [|n IH]; [reflexivity|].
  rewrite Nat.iter_succ, motor_step_unfold. cbn [current_step].
  replace (S n) with (n + 1)%nat by lia.
  rewrite replicate_add, phase_walk_app, <- IH. reflexivity.
Qed.

Lemma plane_rotate_phase (count : Z) (cw : bool) (w : world) :
  current_step (plane_rotate count cw w) =
    phase_walk (current_step w) (replicate (Z.to_nat count) cw) /\
  coils (plane_rotate count cw w) = coils_off.
Proof.
  unfold plane_rotate, motor_off, motor_set_coils.
  cbn [current_step coils log set_coils].
  split; [apply iter_motor_step_phase | reflexivity].
Qed.

(** X1. A signed count of more than one revolution, either way, makes
    [shortest_path] return a negative count, and [plane_rotate] then makes no
    step: it only switches the coils off. *)
Theorem beyond_one_revolution_no_step (delta : Z) (w : world) :
  revolution < Z.abs delta ->
  fst (shortest_path delta) < 0 /\
  plane_rotate (fst (shortest_path delta)) (snd (shortest_path delta)) w
  = motor_off w.
Proof.
  intros H. rewrite shortest_path_unfold.
  destruct (Z.abs delta * 2 <=? revolution) eqn:E;
    [apply Z.leb_le in E; unfold revolution in *; lia|].
  cbn [fst snd]. split; [lia|].
  unfold plane_rotate.
  replace (Z.to_nat (revolution - Z.abs delta)) with 0%nat by lia.
  reflexivity.
Qed.

Lemma beyond_one_revolution_no_step_witness :
  revolution < Z.abs 3057 /\
  fst (shortest_path 3057) = -1019 /\
  position (plane_track 540 (initial 0 0 ∅)) = 0 /\
  plane_rotate (fst (shortest_path 3057)) (snd (shortest_path 3057))
               (initial 0 0 ∅)
  = motor_off (initial 0 0 ∅).
Proof.
  assert (H : revolution < Z.abs 3057) by reflexivity.
  split; [exact H|]. split; [reflexivity|]. split; [reflexivity|].
  exact (proj2 (beyond_one_revolution_no_step 3057 (initial 0 0 ∅) H)).
Defined.

(** X2. For a signed count of at most one revolution either way,
    [shortest_path] returns the shorter of the two ways round,
    [min (|delta|, revolution - |delta|)], and keeps the direction of the sign
    exactly when that way is [|delta|] itself (half a revolution is not
    flipped). *)
Theorem shortest_path_is_shorter_way (delta : Z) :
  Z.abs delta <= revolution ->
  fst (shortest_path delta)
    = Z.min (Z.abs delta) (revolution - Z.abs delta) /\
  (snd (shortest_path delta) = true <->
   (0 < delta /\ delta * 2 <= revolution) \/ delta * 2 < - revolution).
Proof.
  intros H. rewrite shortest_path_unfold.
  destruct (Z.abs delta * 2 <=? revolution) eqn:E;
    [apply Z.leb_le in E | apply Z.leb_gt in E]; cbn [fst snd].
  - split; [lia|].
    destruct (0 <? delta) eqn:S; [apply Z.ltb_lt in S | apply Z.ltb_ge in S];
      split; intros H'; try reflexivity; try lia; try discriminate.
  - split; [lia|].
    destruct (0 <? delta) eqn:S; [apply Z.ltb_lt in S | apply Z.ltb_ge in S];
      cbn [negb]; split; intros H'; try reflexivity; try lia; try discriminate.
Qed.

Lemma shortest_path_is_shorter_way_witness :
  Z.abs (-1500) <= revolution /\
  fst (shortest_path (-1500)) = 538 /\
  snd (shortest_path (-1500)) = true.
Proof.
  assert (H : Z.abs (-1500) <= revolution) by discriminate.
  destruct (shortest_path_is_shorter_way (-1500) H) as [A B].
  split; [exact H|]. split; [rewrite A; reflexivity|].
  apply B. right. reflexivity.
Defined.

Lemma save_position_coils (w : world) :
  coils (save_position w) = coils w /\
  current_step (save_position w) = current_step w /\
  disk (save_position w) !! state_file
    = Some [Assign "north" (north w); Assign "position" (position w)].
Proof.
  split; [reflexivity|]. split; [reflexivity|].
  rewrite save_position_disk. apply lookup_insert_eq.
Qed.

(** X3. Every move ends with the coils switched off: after [plane_rotate],
    after [plane_track] and after [spotted] no coil carries current,
    whatever the count and the direction. *)
Theorem moves_end_with_coils_off (w : world) :
  (forall count cw, coils (plane_rotate count cw w) = coils_off) /\
  (forall trak, coils (plane_track trak w) = coils_off) /\
  (forall bearing trak, coils (spotted bearing trak w) = coils_off).
Proof.
  assert (T : forall trak x, coils (plane_track trak x) = coils_off).
  { intros trak x. unfold plane_track.
    destruct (track_delta _ _ _) as [delta err].
    destruct (shortest_path delta) as [count cw].
    apply plane_rotate_phase. }
  split; [intros; apply plane_rotate_phase|]. split; [intros; apply T|].
  intros bearing trak. unfold spotted.
  rewrite (proj1 (save_position_coils _)). apply T.
Qed.

(** X4. [count] steps one way and [count] steps back bring the position and
    the phase index back to where they were. *)
Theorem plane_rotate_there_and_back (count : Z) (cw : bool) (w : world) :
  0 <= position w < revolution ->
  0 <= current_step w < steps ->
  let w' := plane_rotate count (negb cw) (plane_rotate count cw w) in
  position w' = position w /\ current_step w' = current_step w.
Proof.
  intros Hp Hc. cbn zeta.
  destruct (plane_rotate_frame count cw w) as (_ & _ & _ & P1).
  destruct (plane_rotate_frame count (negb cw) (plane_rotate count cw w))
    as (_ & _ & _ & P2).
  destruct (plane_rotate_phase count cw w) as [C1 _].
  destruct (plane_rotate_phase count (negb cw) (plane_rotate count cw w))
    as [C2 _].
  rewrite P2, P1, C2, C1.
  rewrite (walk_replicate (position w)) by exact Hp.
  rewrite walk_replicate by (apply Z.mod_pos_bound; reflexivity).
  rewrite (phase_walk_replicate (current_step w)) by exact Hc.
  rewrite phase_walk_replicate by (apply Z.mod_pos_bound; reflexivity).
  rewrite !Z.add_mod_idemp_l by discriminate.
  split; (rewrite <- (Z.mod_small _ _ Hp) at 2 ||
          rewrite <- (Z.mod_small _ _ Hc) at 2); f_equal;
    destruct cw; cbn [negb]; lia.
Qed.

Lemma plane_rotate_there_and_back_witness :
  let w := initial 0 2030 ∅ in
  0 <= position w < revolution /\ 0 <= current_step w < steps /\
  position (plane_rotate 25 false (plane_rotate 25 true w)) = 2030 /\
  current_step (plane_rotate 25 false (plane_rotate 25 true w)) = 0.
Proof.
  cbn zeta.
  assert (H1 : 0 <= position (initial 0 2030 ∅) < revolution)
    by (vm_compute; split; [discriminate | reflexivity]).
  assert (H2 : 0 <= current_step (initial 0 2030 ∅) < steps)
    by (vm_compute; split; [discriminate | reflexivity]).
  split; [exact H1|]. split; [exact H2|].
  exact (plane_rotate_there_and_back 25 true (initial 0 2030 ∅) H1 H2).
Defined.

(** X5. Whole revolutions leave the position where it was: [k * revolution]
    steps in either direction end on the starting position.  The phase index
    moves on by [2 * k] modulo 4, since 2038 is not a multiple of 4. *)
Theorem whole_revolutions_return (k : Z) (cw : bool) (w : world) :
  0 <= k ->
  0 <= position w < revolution ->
  0 <= current_step w < steps ->
  position (plane_rotate (k * revolution) cw w) = position w /\
  current_step (plane_rotate (k * revolution) cw w)
    = (current_step w + 2 * k) mod steps.
Proof.
  intros Hk Hp Hc.
  destruct (plane_rotate_frame (k * revolution) cw w) as (_ & _ & _ & ->).
  destruct (plane_rotate_phase (k * revolution) cw w) as [-> _].
  rewrite walk_replicate by exact Hp.
  rewrite phase_walk_replicate by exact Hc.
  rewrite Z2Nat.id by (unfold revolution; lia).
  split.
  - rewrite <- (Z.mod_small _ _ Hp) at 2.
    replace (position w + (if cw then 1 else -1) * (k * revolution))
      with (position w + ((if cw then 1 else -1) * k) * revolution)
      by (destruct cw; lia).
    apply Z.mod_add. discriminate.
  - unfold revolution, steps. destruct cw.
    + replace (current_step w + 1 * (k * 2038))
        with (current_step w + 2 * k + (509 * k) * 4) by lia.
      apply Z.mod_add. discriminate.
    + replace (current_step w + -1 * (k * 2038))
        with (current_step w + 2 * k + (- 510 * k) * 4) by lia.
      apply Z.mod_add. discriminate.
Qed.

Lemma whole_revolutions_return_witness :
  let w := initial 0 77 ∅ in
  0 <= 1 /\ 0 <= position w < revolution /\ 0 <= current_step w < steps /\
  position (plane_rotate (1 * revolution) false w) = 77 /\
  current_step (plane_rotate (1 * revolution) false w) = 2.
Proof.
  cbn zeta.
  assert (H0 : 0 <= 1) by discriminate.
  assert (H1 : 0 <= position (initial 0 77 ∅) < revolution)
    by (vm_compute; split; [discriminate | reflexivity]).
  assert (H2 : 0 <= current_step (initial 0 77 ∅) < steps)
    by (vm_compute; split; [discriminate | reflexivity]).
  split; [exact H0|]. split; [exact H1|]. split; [exact H2|].
  exact (whole_revolutions_return 1 false (initial 0 77 ∅) H0 H1 H2).
Defined.

(** ** The ring *)

Lemma strip_foldl_length {A : Type} (f : world -> A -> world) (l : list A) :
  (forall w a, length (strip (f w a)) = length (strip w)) ->
  forall w, length (strip (foldl f w l)) = length (strip w).
Proof.
  intros Hf. induction l as [|a l IH]; intros w; [reflexivity|].
  simpl. now rewrite IH, Hf.
Qed.

Lemma strip_set_length (i : Z) (c : colour) (w : world) :
  length (strip (strip_set i c w)) = length (strip w).
Proof. unfold strip_set. cbn [strip set_strip]. apply length_insert. Qed.

Lemma strip_clear_length (w : world) :
  length (strip (strip_clear w)) = length (strip w).
Proof.
  unfold strip_clear. apply strip_foldl_length.
  intros w0 a. apply strip_set_length.
Qed.

Lemma strip_show_strip (w : world) : strip (strip_show w) = strip w.
Proof. reflexivity. Qed.

Lemma blank_dark (w : world) :
  length (strip w) = Z.to_nat LED_COUNT ->
  strip (blank w) = dark /\ leds (blank w) = dark.
Proof.
  intros H. unfold blank.
  rewrite strip_show_strip, strip_show_leds, (strip_clear_strip w H).
  split; reflexivity.
Qed.

Lemma strip_spin_length (w : world) :
  length (strip (strip_spin w)) = length (strip w).
Proof.
  unfold strip_spin.
  rewrite strip_show_strip, strip_clear_length.
  rewrite strip_foldl_length.
  - rewrite strip_show_strip. apply strip_clear_length.
  - intros w0 n. rewrite strip_show_strip, strip_set_length.
    destruct (0 <? Z.of_nat n); [apply strip_set_length | reflexivity].
Qed.

(** X6. [blank] and [strip_spin] both end with every LED of the ring off, in
    the buffer and on the ring, and neither touches the motor, the
    accumulated error, the state file or [north]. *)
Theorem blank_and_spin_end_dark (w : world) :
  length (strip w) = Z.to_nat LED_COUNT ->
  leds (blank w) = dark /\ strip (blank w) = dark /\
  leds (strip_spin w) = dark /\ strip (strip_spin w) = dark /\
  strip_frame w (blank w) /\ strip_frame w (strip_spin w).
Proof.
  intros H.
  destruct (blank_dark w H) as [B1 B2].
  split; [exact B2|]. split; [exact B1|].
  assert (S : leds (strip_spin w) = dark /\ strip (strip_spin w) = dark).
  { unfold strip_spin.
    match goal with |- leds (strip_show (strip_clear ?x)) = _ /\ _ =>
      assert (Hx : length (strip x) = Z.to_nat LED_COUNT) end.
    { rewrite strip_foldl_length.
      - rewrite strip_show_strip, strip_clear_length. exact H.
      - intros w0 n. rewrite strip_show_strip, strip_set_length.
        destruct (0 <? Z.of_nat n); [apply strip_set_length | reflexivity]. }
    match goal with |- leds (strip_show (strip_clear ?x)) = _ /\ _ =>
      destruct (blank_dark x Hx) as [S1 S2] end.
    split; [exact S2 | exact S1]. }
  destruct S as [S1 S2].
  split; [exact S1|]. split; [exact S2|].
  split; [apply blank_frame | apply strip_spin_frame].
Qed.

Lemma blank_and_spin_end_dark_witness :
  let w := strip_set 7 (9, 9, 9) (initial 3 0 ∅) in
  length (strip w) = Z.to_nat LED_COUNT /\
  strip w <> dark /\ leds (blank w) = dark /\ leds (strip_spin w) = dark.
Proof.
  cbn zeta.
  assert (H : length (strip (strip_set 7 (9, 9, 9) (initial 3 0 ∅)))
              = Z.to_nat LED_COUNT) by reflexivity.
  destruct (blank_and_spin_end_dark _ H) as (A & _ & B & _).
  split; [exact H|]. split; [|split; [exact A | exact B]].
  vm_compute. discriminate.
Defined.

Lemma calibrate_strip_poll_iter_strip (n : nat) (w : world) :
  strip w = <[0%nat := (0, 0, led_intensity)]> dark ->
  fst (Nat.iter n calibrate_strip_poll (0, w)) = Z.of_nat n mod LED_COUNT /\
  strip (snd (Nat.iter n calibrate_strip_poll (0, w)))
    = <[Z.to_nat (Z.of_nat n mod LED_COUNT) := (0, 0, led_intensity)]> dark.
Proof.
  intros H. induction n as [|n IH].
  - simpl. split; [reflexivity | exact H].
  - rewrite Nat.iter_succ.
    destruct (Nat.iter n calibrate_strip_poll (0, w)) as [i w1].
    cbn [fst snd] in IH. destruct IH as [-> IH].
    unfold calibrate_strip_poll. cbn [fst snd].
    assert (E : (Z.of_nat n mod LED_COUNT + 1) mod LED_COUNT
                = Z.of_nat (S n) mod LED_COUNT).
    { rewrite Z.add_mod_idemp_l by discriminate. f_equal. lia. }
    rewrite E. split; [reflexivity|].
    rewrite strip_show_strip, !strip_set_strip, IH.
    rewrite list_insert_insert_eq. unfold dark at 1.
    rewrite insert_replicate. reflexivity.
Qed.

(** X7. [calibrate_strip] returns the number of polls that read the button
    HIGH, modulo [LED_COUNT], and leaves exactly that cell lit, in red
    [(led_intensity, 0, 0)], with every other cell off. *)
Theorem calibrate_strip_result (highs : nat) (w : world) :
  length (strip w) = Z.to_nat LED_COUNT ->
  let i := fst (calibrate_strip highs w) in
  let w' := snd (calibrate_strip highs w) in
  i = Z.of_nat highs mod LED_COUNT /\
  leds w' = <[Z.to_nat i := (led_intensity, 0, 0)]> dark /\
  strip w' = leds w'.
Proof.
  intros H. cbn zeta. unfold calibrate_strip.
  set (w0 := log CalibrateStrip w).
  assert (H0 : length (strip w0) = Z.to_nat LED_COUNT) by exact H.
  set (w1 := strip_show (strip_set 0 _ (strip_show (strip_clear w0)))).
  assert (H1 : strip w1 = <[0%nat := (0, 0, led_intensity)]> dark).
  { unfold w1.
    rewrite strip_show_strip, strip_set_strip, strip_show_strip,
      (strip_clear_strip w0 H0). reflexivity. }
  destruct (calibrate_strip_poll_iter_strip highs w1 H1) as [E1 E2].
  destruct (Nat.iter highs calibrate_strip_poll (0, w1)) as [i w2].
  cbn [fst snd] in *. subst i. split; [reflexivity|].
  rewrite strip_show_leds, strip_show_strip, strip_set_strip, E2.
  rewrite list_insert_insert_eq. split; reflexivity.
Qed.

Lemma calibrate_strip_result_witness :
  let w := initial (-1) 0 ∅ in
  length (strip w) = Z.to_nat LED_COUNT /\
  fst (calibrate_strip 29 w) = 5 /\
  leds (snd (calibrate_strip 29 w)) = <[5%nat := (128, 0, 0)]> dark.
Proof.
  cbn zeta.
  assert (H : length (strip (initial (-1) 0 ∅)) = Z.to_nat LED_COUNT)
    by reflexivity.
  destruct (calibrate_strip_result 29 _ H) as (A & B & _).
  split; [exact H|]. split; [rewrite A; reflexivity|].
  rewrite B, A. reflexivity.
Defined.

(** ** The calibration of the pointer *)

Lemma calibrate_plane_spec (highs : nat) (w : world) :
  let w' := calibrate_plane highs w in
  motor_frame w w' /\
  accumulated_error w' = accumulated_error w /\
  position w' = walk (position w) (replicate (4 * highs) true) /\
  current_step w' = phase_walk (current_step w) (replicate (4 * highs) true) /\
  exists evs : list event,
    trace w' = trace w ++ CalibratePlane :: evs /\
    steps_in evs = replicate (4 * highs) true.
Proof.
  cbn zeta. unfold calibrate_plane. induction highs as [|n IH].
  - simpl. split; [repeat split|]. split; [reflexivity|].
    split; [reflexivity|]. split; [reflexivity|]. exists []. split; reflexivity.
  - rewrite Nat.iter_succ.
    set (x := Nat.iter n (plane_rotate 4 true) (log CalibratePlane w)) in *.
    destruct IH as ((A1 & A2 & A3 & A4) & A5 & A6 & A7 & evs & A8 & A9).
    destruct (plane_rotate_frame 4 true x)
      as ((B1 & B2 & B3 & B4) & B5 & B6 & B7).
    destruct (plane_rotate_phase 4 true x) as [B8 _].
    replace (4 * S n)%nat with (4 * n + 4)%nat by lia.
    rewrite !replicate_add, walk_app, phase_walk_app.
    change (Z.to_nat 4) with 4%nat in B6, B7, B8.
    split; [unfold motor_frame; repeat split; congruence|].
    split; [congruence|]. split; [congruence|]. split; [congruence|].
    exists (evs ++ replicate 4 (Step true) ++ [Off]). split.
    + rewrite B6, A8, <- app_assoc. reflexivity.
    + rewrite steps_in_app, A9, steps_in_app, steps_in_replicate.
      reflexivity.
Qed.

(** X8. [calibrate_plane] turns the pointer clockwise only, four steps for
    each poll that reads the button HIGH: from a position in
    [0, revolution) it ends at [(position + 4 * highs) mod revolution], and
    it leaves the accumulated error, [north], the ring and the state file as
    they were. *)
Theorem calibrate_plane_result (highs : nat) (w : world) :
  0 <= position w < revolution ->
  let w' := calibrate_plane highs w in
  position w' = (position w + 4 * Z.of_nat highs) mod revolution /\
  (exists evs : list event,
     trace w' = trace w ++ CalibratePlane :: evs /\
     steps_in evs = replicate (4 * highs) true) /\
  accumulated_error w' = accumulated_error w /\
  north w' = north w /\ leds w' = leds w /\ disk w' = disk w.
Proof.
  intros Hp. cbn zeta.
  destruct (calibrate_plane_spec highs w)
    as ((A1 & A2 & A3 & A4) & A5 & A6 & _ & A7).
  rewrite A6, walk_replicate by exact Hp.
  split; [f_equal; lia|]. auto.
Qed.

Lemma calibrate_plane_result_witness :
  let w := initial (-1) 2030 ∅ in
  0 <= position w < revolution /\
  position (calibrate_plane 3 w) = 4.
Proof.
  cbn zeta.
  assert (H : 0 <= position (initial (-1) 2030 ∅) < revolution)
    by (vm_compute; split; [discriminate | reflexivity]).
  split; [exact H|].
  rewrite (proj1 (calibrate_plane_result 3 _ H)). reflexivity.
Defined.

(** ** What every function keeps *)

Lemma calibrate_strip_length (highs : nat) (w : world) :
  length (strip (snd (calibrate_strip highs w))) = length (strip w).
Proof.
  unfold calibrate_strip.
  set (w1 := strip_show (strip_set 0 _ (strip_show (strip_clear _)))).
  assert (H1 : length (strip w1) = length (strip w)).
  { unfold w1. rewrite strip_show_strip, strip_set_length, strip_show_strip.
    apply (strip_clear_length (log CalibrateStrip w)). }
  assert (H2 : forall n i x,
             length (strip (snd (Nat.iter n calibrate_strip_poll (i, x))))
             = length (strip x)).
  { induction n as [|n IH]; intros i x; [reflexivity|].
    rewrite Nat.iter_succ. specialize (IH i x).
    destruct (Nat.iter n calibrate_strip_poll (i, x)) as [i1 x1].
    cbn [snd] in *. unfold calibrate_strip_poll. cbn [snd].
    now rewrite strip_show_strip, !strip_set_length. }
  specialize (H2 highs 0 w1).
  destruct (Nat.iter highs calibrate_strip_poll (0, w1)) as [i w2].
  cbn [snd] in *.
  now rewrite strip_show_strip, strip_set_length, H2, H1.
Qed.

Lemma plane_track_error_range (trak : Q) (w : world) :
  (-1 < accumulated_error w < 1)%Q ->
  (-1 < accumulated_error (plane_track trak w) < 1)%Q.
Proof.
  intros He.
  destruct (plane_track_frame trak w) as (_ & -> & _ & _).
  assert (H := track_delta_spec trak (position w) (accumulated_error w) He).
  destruct (track_delta _ _ _) as [delta err']. apply H.
Qed.

Lemma spotted_frame (bearing trak : Q) (w : world) :
  length (strip (spotted bearing trak w)) = length (strip w) /\
  accumulated_error (spotted bearing trak w)
  = accumulated_error (plane_track trak w) /\
  position (spotted bearing trak w) = position (plane_track trak w).
Proof.
  unfold spotted.
  set (x := strip_show (strip_set _ _ (strip_clear w))).
  assert (Hx : strip_frame w x).
  { unfold x. eapply strip_frame_trans; [apply strip_clear_frame|].
    eapply strip_frame_trans; [apply strip_set_frame | apply strip_show_frame]. }
  destruct Hx as (_ & P & _ & E & _).
  destruct (save_position_frame (plane_track trak x))
    as (_ & -> & -> & -> & _).
  destruct (plane_track_frame trak x) as ((_ & S & _) & A & _ & B).
  destruct (plane_track_frame trak w) as (_ & A' & _ & B').
  cbn zeta in *. rewrite S, A, B, A', B', P, E.
  split; [|split; reflexivity].
  unfold x. rewrite strip_show_strip, strip_set_length.
  apply strip_clear_length.
Qed.

(** X9. No function changes the number of pixels of the ring buffer, and the
    start-up code does not either: a ring of [LED_COUNT] pixels stays one. *)
Theorem ring_size_is_kept (op : operation) (o : operator) (w : world) :
  length (strip (run op w)) = length (strip w) /\
  length (strip (startup o w)) = length (strip w).
Proof.
  split.
  - destruct op; cbn [run].
    + now rewrite motor_step_unfold.
    + reflexivity.
    + now destruct (plane_rotate_frame count clockwise w) as ((_ & -> & _) & _).
    + now destruct (plane_track_frame trak w) as ((_ & -> & _) & _).
    + apply strip_clear_length.
    + apply strip_spin_length.
    + apply calibrate_strip_length.
    + now destruct (calibrate_plane_spec highs w) as ((_ & -> & _) & _).
    + reflexivity.
    + apply spotted_frame.
    + unfold blank. rewrite strip_show_strip. apply strip_clear_length.
  - unfold startup.
    destruct (strip_spin_frame w) as (N & _). rewrite N.
    assert (B : forall x, length (strip (blank (strip_show (strip_clear x))))
                          = length (strip x)).
    { intros x. unfold blank.
      now rewrite strip_show_strip, strip_clear_length, strip_show_strip,
        strip_clear_length. }
    rewrite B.
    destruct (north w =? -1); [|apply strip_spin_length].
    assert (L := calibrate_strip_length (strip_highs o) (strip_spin w)).
    destruct (calibrate_strip (strip_highs o) (strip_spin w)) as [i w1].
    cbn [snd] in L.
    destruct (save_position_frame
                (set_position 0 (calibrate_plane (plane_highs o)
                                                 (set_north i w1))))
      as (_ & _ & _ & -> & _).
    cbn [strip set_position].
    destruct (calibrate_plane_spec (plane_highs o) (set_north i w1))
      as ((_ & -> & _) & _).
    cbn [strip set_north]. rewrite L. apply strip_spin_length.
Qed.

Lemma log_error (e : event) (w : world) :
  accumulated_error (log e w) = accumulated_error w.
Proof. reflexivity. Qed.

Lemma startup_error (o : operator) (w : world) :
  accumulated_error (startup o w) = accumulated_error w.
Proof.
  unfold startup.
  destruct (strip_spin_frame w) as (N & _ & _ & E & _). rewrite N.
  match goal with |- accumulated_error (blank (strip_show (strip_clear ?x))) = _ =>
    destruct (blank_frame (strip_show (strip_clear x))) as (_ & _ & _ & -> & _);
    destruct (blank_frame x) as (_ & _ & _ & Hb & _); unfold blank in Hb;
    rewrite Hb
  end.
  destruct (north w =? -1); [|exact E].
  destruct (calibrate_strip_spec (strip_highs o) (strip_spin w))
    as (_ & (_ & _ & _ & E1 & _)).
  destruct (calibrate_strip (strip_highs o) (strip_spin w)) as [i w1].
  cbn [snd] in E1.
  destruct (save_position_frame
              (set_position 0 (calibrate_plane (plane_highs o)
                                               (set_north i w1))))
    as (_ & _ & -> & _).
  cbn [accumulated_error set_position].
  destruct (calibrate_plane_spec (plane_highs o) (set_north i w1))
    as (_ & -> & _).
  cbn [accumulated_error set_north]. rewrite E1, log_error. exact E.
Qed.

(** X10. Every function keeps an accumulated error of (-1, 1) inside (-1, 1),
    and so does the start-up code; only [plane_track], and [spotted] through
    it, change the error at all. *)
Theorem error_is_kept_by_every_function (op : operation) (o : operator)
        (w : world) :
  (-1 < accumulated_error w < 1)%Q ->
  (-1 < accumulated_error (run op w) < 1)%Q /\
  (-1 < accumulated_error (startup o w) < 1)%Q /\
  ((forall trak, op <> OpPlaneTrack trak) ->
   (forall bearing trak, op <> OpSpotted bearing trak) ->
   accumulated_error (run op w) = accumulated_error w).
Proof.
  intros He.
  assert (K : (exists t, op = OpPlaneTrack t) \/
              (exists b t, op = OpSpotted b t) \/
              accumulated_error (run op w) = accumulated_error w).
  { destruct op; cbn [run].
    - right; right. now rewrite motor_step_unfold.
    - right; right. reflexivity.
    - right; right.
      now destruct (plane_rotate_frame count clockwise w) as (_ & -> & _).
    - left. now exists trak.
    - right; right.
      now destruct (strip_clear_frame w) as (_ & _ & _ & -> & _).
    - right; right.
      now destruct (strip_spin_frame w) as (_ & _ & _ & -> & _).
    - right; right.
      destruct (calibrate_strip_spec highs w) as (_ & (_ & _ & _ & -> & _)).
      apply log_error.
    - right; right.
      now destruct (calibrate_plane_spec highs w) as (_ & -> & _).
    - right; right. reflexivity.
    - right; left. now exists bearing, trak.
    - right; right.
      now destruct (blank_frame w) as (_ & _ & _ & -> & _). }
  split; [|split].
  - destruct K as [[t ->] | [(b & t & ->) | ->]]; cbn [run].
    + now apply plane_track_error_range.
    + destruct (spotted_frame b t w) as (_ & -> & _).
      now apply plane_track_error_range.
    + exact He.
  - rewrite startup_error. exact He.
  - intros H1 H2. destruct K as [[t ->] | [(b & t & ->) | K]].
    + now destruct (H1 t).
    + now destruct (H2 b t).
    + exact K.
Qed.

Lemma error_is_kept_by_every_function_witness :
  let w := set_accumulated_error (9 # 10) (initial 3 5 ∅) in
  (-1 < accumulated_error w < 1)%Q /\
  (-1 < accumulated_error (run (OpSpotted 10 1) w) < 1)%Q /\
  accumulated_error (run (OpCalibratePlane 2) w) = (9 # 10)%Q.
Proof.
  cbn zeta.
  assert (H : (-1 < accumulated_error
                       (set_accumulated_error (9 # 10) (initial 3 5 ∅)) < 1)%Q)
    by (split; reflexivity).
  destruct (error_is_kept_by_every_function (OpSpotted 10 1) (Operator 0 0) _ H)
    as (A & _).
  destruct (error_is_kept_by_every_function (OpCalibratePlane 2)
              (Operator 0 0) _ H) as (_ & _ & B).
  split; [exact H|]. split; [exact A|].
  rewrite B; [reflexivity | discriminate | discriminate].
Defined.

(** X11. No function assigns [north]: it is the same after any of them.  Only
    the start-up code sets it, and only when it calibrates. *)
Theorem north_is_read_only (op : operation) (o : operator) (w : world) :
  north (run op w) = north w /\
  (north w <> -1 -> north (startup o w) = north w).
Proof.
  split.
  - destruct op; cbn [run].
    + now rewrite motor_step_unfold.
    + reflexivity.
    + exact (proj1 (proj1 (plane_rotate_frame count clockwise w))).
    + exact (proj1 (proj1 (plane_track_frame trak w))).
    + exact (proj1 (strip_clear_frame w)).
    + exact (proj1 (strip_spin_frame w)).
    + exact (proj1 (proj2 (calibrate_strip_spec highs w))).
    + exact (proj1 (proj1 (calibrate_plane_spec highs w))).
    + reflexivity.
    + exact (proj1 (spotted_saves bearing trak w)).
    + exact (proj1 (blank_frame w)).
  - intros H. exact (proj1 (startup_calibrated o w H)).
Qed.

Lemma north_is_read_only_witness :
  north (initial 7 0 ∅) <> -1 /\
  north (startup (Operator 4 4) (initial 7 0 ∅)) = 7 /\
  north (run (OpSpotted 10 20) (initial 7 0 ∅)) = 7.
Proof.
  assert (H : north (initial 7 0 ∅) <> -1) by discriminate.
  destruct (north_is_read_only (OpSpotted 10 20) (Operator 4 4)
              (initial 7 0 ∅)) as [A B].
  split; [exact H|]. split; [exact (B H) | exact A].
Defined.

(** ** The state file and the running script *)

Lemma blank_in_sync (w : world) : in_sync w -> in_sync (blank w).
Proof.
  unfold in_sync. intros H.
  destruct (blank_frame w) as (-> & -> & _ & _ & _ & -> & _). exact H.
Qed.

Lemma spotted_in_sync (bearing trak : Q) (w : world) :
  in_sync (spotted bearing trak w).
Proof.
  unfold in_sync.
  destruct (spotted_saves bearing trak w) as (-> & -> & _). reflexivity.
Qed.

(** X12. The state file follows the script.  After [spotted] the file holds
    the [north] and the [position] of the running script; [blank] keeps it
    so; hence after any number of passes of the main loop a restart loads
    exactly the state the script had.  The start-up code ends in that state
    too, when it calibrates or when it started from what the file held. *)
Theorem state_file_in_sync (cs : list cycle) (o : operator) (w : world) :
  (forall bearing trak, in_sync (spotted bearing trak w)) /\
  (in_sync w -> in_sync (foldl (fun w c => run_cycle c w) w cs)) /\
  (north w = -1 \/ in_sync w -> in_sync (startup o w)).
Proof.
  split; [intros; apply spotted_in_sync|]. split.
  - revert w. induction cs as [|c cs IH]; intros w H; [exact H|].
    simpl. apply IH. destruct c; cbn [run_cycle].
    + apply spotted_in_sync.
    + now apply blank_in_sync.
  - intros H. destruct (Z.eq_dec (north w) (-1)) as [E|E].
    + destruct (startup_calibrating o w E) as (_ & P & D & _).
      unfold in_sync. rewrite D, P. apply load_position_insert.
    + destruct H as [H|H]; [contradiction|].
      unfold in_sync in *.
      destruct (startup_calibrated o w E) as (-> & -> & _ & _ & _ & -> & _).
      exact H.
Qed.

Lemma state_file_in_sync_witness :
  let w := startup (Operator 5 2) (initial (-1) 17 ∅) in
  north (initial (-1) 17 ∅) = -1 /\
  in_sync w /\
  in_sync (foldl (fun w c => run_cycle c w) w [Spotted 10 200; Blank; Spotted 11 90]).
Proof.
  cbn zeta.
  destruct (state_file_in_sync [] (Operator 5 2) (initial (-1) 17 ∅))
    as (_ & _ & S).
  assert (H := S (or_introl eq_refl)).
  split; [reflexivity|]. split; [exact H|].
  exact (proj1 (proj2 (state_file_in_sync [Spotted 10 200; Blank; Spotted 11 90]
                         (Operator 5 2) _)) H).
Defined.

(** ** The error and the target *)



(** X14. However many bearings of [0, 360) were tracked before, after
    [plane_track trak] the position is less than one step from
    [trak * steps_per_degree] (modulo [revolution]): the pointer does not
    drift with the number of calls. *)
Theorem pointer_follows_latest_bearing (traks : list Q) (trak : Q) (w : world) :
  0 <= position w < revolution ->
  (-1 < accumulated_error w < 1)%Q ->
  Forall (fun t => 0 <= t < 360)%Q traks ->
  (0 <= trak < 360)%Q ->
  let w' := plane_track trak (foldl (fun w t => plane_track t w) w traks) in
  within_one_step (position w') (trak * steps_per_degree) /\
  0 <= position w' < revolution /\
  (-1 < accumulated_error w' < 1)%Q.
Proof.
  intros Hp He Hts Ht. cbn zeta.
  assert (Hok : tracker_ok (foldl (fun w t => plane_track t w) w traks)).
  { assert (H0 : tracker_ok w) by (split; assumption).
    clear Hp He. revert w H0.
    induction Hts as [|t traks Ht' _ IH]; intros w H0; [exact H0|].
    simpl. apply IH. now apply plane_track_arrives. }
  destruct (plane_track_arrives trak _ Hok Ht) as [[A B] C].
  split; [exact C|]. split; [exact A | exact B].
Qed.

Lemma pointer_follows_latest_bearing_witness :
  let w := initial 0 5 ∅ in
  let w' := plane_track 359 (foldl (fun w t => plane_track t w) w [1; 200; 17]%Q) in
  0 <= position w < revolution /\
  (-1 < accumulated_error w < 1)%Q /\
  Forall (fun t => 0 <= t < 360)%Q [1; 200; 17]%Q /\
  (0 <= 359 < 360)%Q /\
  within_one_step (position w') (359 * steps_per_degree).
Proof.
  cbn zeta.
  assert (H1 : 0 <= position (initial 0 5 ∅) < revolution)
    by (vm_compute; split; [discriminate | reflexivity]).
  assert (H2 : (-1 < accumulated_error (initial 0 5 ∅) < 1)%Q)
    by (split; reflexivity).
  assert (H3 : Forall (fun t => 0 <= t < 360)%Q [1; 200; 17]%Q)
    by (repeat constructor; discriminate).
  assert (H4 : (0 <= 359 < 360)%Q) by (split; [discriminate | reflexivity]).
  split; [exact H1|]. split; [exact H2|]. split; [exact H3|].
  split; [exact H4|].
  exact (proj1 (pointer_follows_latest_bearing [1; 200; 17]%Q 359 _
                  H1 H2 H3 H4)).
Defined.

(** ** Look-ups in the CSV files *)

Lemma findcsv_cons (row : list string) (rows : list (list string))
      (col : nat) (m : string) :
  findcsv (row :: rows) col m =
  match row !! col with
  | None => Raised IndexError
  | Some field => if String.eqb field (py_strip m) then Returned row
                  else findcsv rows col m
  end.
Proof. reflexivity. Qed.

(** X15. [findcsv] returns the first row whose field [col] equals the
    stripped [match], provided every row before it has a field [col]; and
    when every row has a field [col] and none equals the stripped [match], it
    returns five copies of [match] as it was given, not stripped.  It returns
    nothing else. *)
Theorem findcsv_first_match_or_fake (rows : list (list string)) (col : nat)
        (m : string) (r : list string) :
  findcsv rows col m = Returned r <->
  (exists pre post : list (list string),
     rows = pre ++ r :: post /\
     r !! col = Some (py_strip m) /\
     Forall (other_row col (py_strip m)) pre) \/
  (r = replicate 5 m /\ Forall (other_row col (py_strip m)) rows).
Proof.
  induction rows as [|row rows IH].
  - simpl. split.
    + intros H. injection H as <-. right. split; [reflexivity | constructor].
    + intros [(pre & post & H & _) | [-> _]]; [|reflexivity].
      destruct pre; discriminate.
  - rewrite findcsv_cons. destruct (row !! col) as [field|] eqn:F.
    + destruct (String.eqb field (py_strip m)) eqn:E.
      * apply String.eqb_eq in E. subst field. split.
        -- intros H. injection H as <-. left. exists [], rows.
           split; [reflexivity|]. split; [exact F | constructor].
        -- intros [(pre & post & H & Hr & Hpre) | [_ Hall]].
           ++ destruct pre as [|p pre].
              ** simpl in H. injection H as -> _. reflexivity.
              ** simpl in H. injection H as -> _.
                 apply Forall_cons in Hpre as [(f & Hf & Hne) _]. congruence.
           ++ apply Forall_cons in Hall as [(f & Hf & Hne) _]. congruence.
      * apply String.eqb_neq in E.
        assert (O : other_row col (py_strip m) row) by (exists field; auto).
        rewrite IH. split.
        -- intros [(pre & post & -> & Hr & Hpre) | [-> Hall]].
           ++ left. exists (row :: pre), post.
              split; [reflexivity|]. split; [exact Hr|]. now constructor.
           ++ right. split; [reflexivity | now constructor].
        -- intros [(pre & post & H & Hr & Hpre) | [-> Hall]].
           ++ destruct pre as [|p pre].
              ** simpl in H. injection H as -> _. congruence.
              ** simpl in H. injection H as -> ->. left. exists pre, post.
                 split; [reflexivity|]. split; [exact Hr|].
                 now apply Forall_cons in Hpre as [_ Hpre].
           ++ right. split; [reflexivity|].
              now apply Forall_cons in Hall as [_ Hall].
    + split; [discriminate|].
      intros [(pre & post & H & Hr & Hpre) | [_ Hall]].
      * destruct pre as [|p pre].
        -- simpl in H. injection H as -> _. congruence.
        -- simpl in H. injection H as -> _.
           apply Forall_cons in Hpre as [(f & Hf & _) _]. congruence.
      * apply Forall_cons in Hall as [(f & Hf & _) _]. congruence.
Qed.

(** X16. [findcsv] raises exactly when a row without a field [col] (an empty
    line of the file, for one) comes before any row that matches; the
    exception is IndexError. *)
Theorem findcsv_raises_on_short_row (rows : list (list string)) (col : nat)
        (m : string) (e : py_error) :
  findcsv rows col m = Raised e <->
  e = IndexError /\
  exists (pre : list (list string)) (row : list string)
         (post : list (list string)),
    rows = pre ++ row :: post /\
    (length row <= col)%nat /\
    Forall (other_row col (py_strip m)) pre.
Proof.
  induction rows as [|row rows IH].
  - simpl. split; [discriminate|].
    intros (_ & pre & r & post & H & _). destruct pre; discriminate.
  - rewrite findcsv_cons. destruct (row !! col) as [field|] eqn:F.
    + destruct (String.eqb field (py_strip m)) eqn:E.
      * apply String.eqb_eq in E. subst field. split; [discriminate|].
        intros (_ & pre & r & post & H & Hlen & Hpre).
        destruct pre as [|p pre]; simpl in H; injection H as -> _.
        -- apply lookup_ge_None_2 in Hlen. congruence.
        -- apply Forall_cons in Hpre as [(f & Hf & Hne) _]. congruence.
      * apply String.eqb_neq in E. rewrite IH. split.
        -- intros (-> & pre & r & post & -> & Hlen & Hpre).
           split; [reflexivity|]. exists (row :: pre), r, post.
           split; [reflexivity|]. split; [exact Hlen|].
           constructor; [exists field; auto | exact Hpre].
        -- intros (-> & pre & r & post & H & Hlen & Hpre).
           split; [reflexivity|].
           destruct pre as [|p pre]; simpl in H.
           ++ injection H as -> _.
              apply lookup_ge_None_2 in Hlen. congruence.
           ++ injection H as -> ->. exists pre, r, post.
              split; [reflexivity|]. split; [exact Hlen|].
              now apply Forall_cons in Hpre as [_ Hpre].
    + split.
      * intros H. injection H as <-. split; [reflexivity|].
        exists [], row, rows. split; [reflexivity|].
        split; [now apply lookup_ge_None_1 | constructor].
      * intros (-> & _). reflexivity.
Qed.

Lemma findcsv_returned_length (rows : list (list string)) (col : nat)
      (m : string) (r : list string) :
  findcsv rows col m = Returned r ->
  (col < length r)%nat \/ r = replicate 5 m.
Proof.
  induction rows as [|row rows IH].
  - simpl. intros H. injection H as <-. right. reflexivity.
  - rewrite findcsv_cons. destruct (row !! col) as [field|] eqn:F;
      [|discriminate].
    destruct (String.eqb field (py_strip m)); [|exact IH].
    intros H. injection H as <-. left. now apply lookup_lt_Some in F.
Qed.

(** X17. The subscripts that the main loop applies to a result of [findcsv]
    cannot fail: when [findcsv] returns, with [col] at most 4, the row
    returned has a field at every index up to [col] (the script reads index
    0 with [col = 2] and indices 1, 2, 3 with [col = 4]). *)
Theorem findcsv_result_is_long_enough (rows : list (list string)) (col : nat)
        (m : string) (r : list string) (k : nat) :
  findcsv rows col m = Returned r ->
  (col <= 4)%nat -> (k <= col)%nat ->
  is_Some (r !! k).
Proof.
  intros H Hc Hk.
  apply findcsv_returned_length in H.
  destruct H as [Hlong | ->].
  - apply lookup_lt_is_Some_2. lia.
  - apply lookup_lt_is_Some_2. simpl. lia.
Qed.

Lemma findcsv_result_is_long_enough_witness :
  let rows := [ ["A320"; "Airbus"; "A320"]; []; ["B738"; "Boeing"; "B738"] ]%string in
  findcsv rows 2 " A320 " = Returned ["A320"; "Airbus"; "A320"]%string /\
  (2 <= 4)%nat /\ (0 <= 2)%nat /\
  is_Some (["A320"; "Airbus"; "A320"]%string !! 0%nat) /\
  findcsv rows 2 "B738" = Raised IndexError /\
  findcsv [["A320"; "Airbus"; "A320"]]%string 2 "C172 "
    = Returned (replicate 5 "C172 "%string).
Proof.
  cbn zeta.
  assert (H : findcsv [ ["A320"; "Airbus"; "A320"]; [];
                        ["B738"; "Boeing"; "B738"] ]%string 2 " A320 "
              = Returned ["A320"; "Airbus"; "A320"]%string) by reflexivity.
  split; [exact H|]. split; [lia|]. split; [lia|].
  split; [|split; reflexivity].
  exact (findcsv_result_is_long_enough _ 2 _ _ 0 H ltac:(lia) ltac:(lia)).
Defined.

(** ** The aircraft of the feed *)

Lemma has_required_spec (rs : list string) (ac : gmap string string) :
  has_required rs ac = true <->
  forall r : string, r ∈ rs ->
    exists v : string, ac !! r = Some v /\ py_strip v <> ""%string.
Proof.
  induction rs as [|r rs IH].
  - simpl. split; [|reflexivity]. intros _ r Hr.
    now apply elem_of_nil in Hr.
  - simpl. destruct (ac !! r) as [v|] eqn:F.
    + destruct (String.eqb (py_strip v) "") eqn:E.
      * apply String.eqb_eq in E. split; [discriminate|]. intros H.
        destruct (H r) as (v' & Hv & Hne); [apply elem_of_cons; auto|].
        congruence.
      * apply String.eqb_neq in E. rewrite IH. split.
        -- intros H r' Hr'. apply elem_of_cons in Hr' as [-> | Hr'].
           ++ exists v. auto.
           ++ now apply H.
        -- intros H r' Hr'. apply H. apply elem_of_cons. auto.
    + split; [discriminate|]. intros H.
      destruct (H r) as (v' & Hv & _); [apply elem_of_cons; auto|].
      congruence.
Qed.


Lemma near_loop_cons (a : gmap string string)
      (acs near : list (gmap string string)) :
  near_loop (a :: acs) near =
  if has_required required a then
    match a !! "gnd"%string with
    | None => Raised KeyError
    | Some g => if String.eqb g "0" then near_loop acs (near ++ [a])
                else near_loop acs near
    end
  else near_loop acs near.
Proof. reflexivity. Qed.



Lemma wanted_without_alt (ac : gmap string string) :
  wanted ac -> wanted (delete "alt"%string ac).
Proof.
  intros [H G]. split.
  - intros r Hr. destruct (H r Hr) as (v & Hv & Hne). exists v.
    split; [|exact Hne]. rewrite lookup_delete_ne; [exact Hv|].
    intros <-. unfold required in Hr.
    repeat (apply elem_of_cons in Hr as [Hr | Hr]; [discriminate|]).
    now apply elem_of_nil in Hr.
  - rewrite lookup_delete_ne; [exact G | discriminate].
Qed.

(** X19. The filter does not look at the field [alt], which the main loop
    reads from the aircraft it shows (line 533): an aircraft that is kept is
    kept as well without its [alt], and [near] can so hold an aircraft on
    which [ac['alt']] raises KeyError. *)
Theorem alt_is_not_required (ac : gmap string string) :
  wanted ac ->
  build_near [delete "alt"%string ac] = Returned [delete "alt"%string ac] /\
  delete "alt"%string ac !! "alt"%string = None.
Proof.
  intros H. split; [|apply lookup_delete_eq].
  apply wanted_without_alt in H. destruct H as [H G].
  unfold build_near. rewrite near_loop_cons.
  rewrite (proj2 (has_required_spec required _) H), G. reflexivity.
Qed.

Lemma alt_is_not_required_witness :
  let ac : gmap string string :=
    list_to_map [ ("call", "BAW123"); ("type", "A320"); ("opicao", "BAW");
                  ("from", "EGLL London"); ("to", "LPPT Lisbon");
                  ("lat", "38.7"); ("lon", "-9.1"); ("trak", "181.5");
                  ("gnd", "0"); ("alt", "35000") ]%string in
  wanted ac /\
  build_near [delete "alt"%string ac] = Returned [delete "alt"%string ac] /\
  delete "alt"%string ac !! "alt"%string = None.
Proof.
  cbn zeta.
  set (ac := list_to_map _ : gmap string string).
  assert (H : wanted ac).
  { split; [|reflexivity].
    apply (proj1 (has_required_spec required ac)). reflexivity. }
  split; [exact H|]. exact (alt_is_not_required ac H).
Defined.

(** ** The nearest aircraft *)

Section NearestFacts.
Variable distance : gmap string string -> py_result Q.

Lemma sort_keys_cons (a : gmap string string)
      (l : list (gmap string string)) :
  sort_keys distance (a :: l) =
  match distance a with
  | Raised e => Raised e
  | Returned k =>
      match sort_keys distance l with
      | Raised e => Raised e
      | Returned ks => Returned ((k, a) :: ks)
      end
  end.
Proof. reflexivity. Qed.

Lemma sort_keys_returned (l : list (gmap string string)) :
  Forall (fun a => exists q, distance a = Returned q) l ->
  exists ks : list (Q * gmap string string),
    sort_keys distance l = Returned ks /\
    snd <$> ks = l /\
    Forall (fun p => distance (snd p) = Returned (fst p)) ks.
Proof.
  induction 1 as [|a l [q Hq] _ (ks & H1 & H2 & H3)].
  - exists []. repeat split. constructor.
  - exists ((q, a) :: ks). rewrite sort_keys_cons, Hq, H1.
    split; [reflexivity|]. split; [now rewrite fmap_cons, H2|].
    constructor; [exact Hq | exact H3].
Qed.

Lemma sort_keys_raised (l : list (gmap string string)) (e : py_error) :
  sort_keys distance l = Raised e <->
  exists pre a post,
    l = pre ++ a :: post /\ distance a = Raised e /\
    Forall (fun x => exists q, distance x = Returned q) pre.
Proof.
  induction l as [|a l IH].
  - split; [discriminate|]. intros (pre & x & post & H & _).
    destruct pre; discriminate.
  - rewrite sort_keys_cons. destruct (distance a) as [k|e'] eqn:D.
    + destruct (sort_keys distance l) as [ks|e''] eqn:S.
      * split; [discriminate|].
        intros (pre & x & post & H & Hx & Hpre).
        destruct pre as [|p pre]; simpl in H; injection H as -> ->.
        -- congruence.
        -- apply Forall_cons in Hpre as [_ Hpre].
           assert (Returned ks = Raised e :> py_result _); [|discriminate].
           apply IH. exists pre, x, post. auto.
      * split.
        -- intros H. injection H as ->.
           destruct (proj1 IH eq_refl) as (pre & x & post & -> & Hx & Hpre).
           exists (a :: pre), x, post. split; [reflexivity|].
           split; [exact Hx|]. constructor; [eauto | exact Hpre].
        -- intros (pre & x & post & H & Hx & Hpre).
           destruct pre as [|p pre]; simpl in H; injection H as -> ->.
           ++ congruence.
           ++ apply Forall_cons in Hpre as [_ Hpre]. apply IH.
              exists pre, x, post. auto.
    + split.
      * intros H. injection H as ->. exists [], a, l. repeat split; auto.
      * intros (pre & x & post & H & Hx & Hpre).
        destruct pre as [|p pre]; simpl in H; injection H as -> ->.
        -- congruence.
        -- apply Forall_cons in Hpre as [[q Hq] _]. congruence.
Qed.

Lemma sort_keyed_head (ks : list (Q * gmap string string)) :
  ks <> [] ->
  exists k a pre post,
    head (sort_keyed ks) = Some (k, a) /\
    ks = pre ++ (k, a) :: post /\
    Forall (fun p => k < fst p)%Q pre /\
    Forall (fun p => k <= fst p)%Q post.
Proof.
  induction ks as [|[kx x] ks IH]; [congruence|]. intros _.
  destruct ks as [|y ks'].
  - exists kx, x, [], []. repeat split; constructor.
  - destruct IH as (k & a & pre & post & H1 & H2 & H3 & H4); [discriminate|].
    change (sort_keyed ((kx, x) :: y :: ks'))
      with (sort_insert (kx, x) (sort_keyed (y :: ks'))).
    destruct (sort_keyed (y :: ks')) as [|z rest]; [discriminate|].
    simpl in H1. injection H1 as ->. cbn [sort_insert fst].
    unfold Qgt_bool. destruct (Qle_bool kx k) eqn:E; cbn [negb head].
    + apply Qle_bool_iff in E.
      exists kx, x, [], (y :: ks'). split; [reflexivity|].
      split; [reflexivity|]. split; [constructor|].
      rewrite H2. apply Forall_app. split.
      * eapply Forall_impl; [exact H3|]. intros p Hp. cbn beta in *.
        apply Qle_trans with k; [exact E | now apply Qlt_le_weak].
      * constructor; [exact E|].
        eapply Forall_impl; [exact H4|]. intros p Hp. cbn beta in *.
        now apply Qle_trans with k.
    + assert (E' : (k < kx)%Q).
      { apply Qnot_le_lt. intros H. apply Qle_bool_iff in H. congruence. }
      exists k, a, ((kx, x) :: pre), post. split; [reflexivity|].
      split; [now rewrite H2|]. split; [now constructor | exact H4].
Qed.

(** X20. The aircraft shown is the nearest one.  When [near] is empty the
    main loop picks none.  Otherwise, when [distance] returns a number for
    every aircraft of [near], sorting and taking [near[0]] gives the first
    aircraft of [near] whose distance is the smallest: everyone before it
    is strictly farther, no one after it is nearer. *)
Theorem nearest_is_first_closest (near : list (gmap string string)) :
  (near = [] -> nearest distance near = Returned None) /\
  (near <> [] ->
   Forall (fun a => exists q, distance a = Returned q) near ->
   exists (ac : gmap string string) (q : Q)
          (pre post : list (gmap string string)),
     nearest distance near = Returned (Some ac) /\
     near = pre ++ ac :: post /\
     distance ac = Returned q /\
     Forall (fun a => exists q', distance a = Returned q' /\ (q < q')%Q) pre /\
     Forall (fun a => exists q', distance a = Returned q' /\ (q <= q')%Q) post).
Proof.
  split; [intros ->; reflexivity|].
  intros Hne Hall. unfold nearest.
  destruct near as [|a0 near0]; [congruence|]. cbn [length Nat.ltb Nat.leb].
  destruct (sort_keys_returned _ Hall) as (ks & H1 & H2 & H3).
  rewrite H1.
  assert (Hks : ks <> []) by (intros ->; discriminate).
  destruct (sort_keyed_head ks Hks) as (k & a & pre & post & E1 & E2 & E3 & E4).
  rewrite E1. exists a, k, (snd <$> pre), (snd <$> post).
  split; [reflexivity|].
  subst ks. rewrite fmap_app in H2. split; [now rewrite <- H2|].
  apply Forall_app in H3 as [P1 P2]. apply Forall_cons in P2 as [P2 P3].
  split; [exact P2|]. split.
  - apply Forall_fmap. clear -P1 E3. induction pre as [|p pre IH];
      [constructor|].
    apply Forall_cons in P1 as [A1 A2]. apply Forall_cons in E3 as [B1 B2].
    constructor; [exists (fst p); auto | auto].
  - apply Forall_fmap. clear -P3 E4. induction post as [|p post IH];
      [constructor|].
    apply Forall_cons in P3 as [A1 A2]. apply Forall_cons in E4 as [B1 B2].
    constructor; [exists (fst p); auto | auto].
Qed.

(** X21. Picking the nearest aircraft raises exactly when [distance] raises
    for some aircraft of [near]; the exception is the one of the first such
    aircraft, since [list.sort] computes the keys in order before it
    sorts. *)
Theorem nearest_raises_with_distance (near : list (gmap string string))
        (e : py_error) :
  nearest distance near = Raised e <->
  exists pre a post,
    near = pre ++ a :: post /\ distance a = Raised e /\
    Forall (fun x => exists q, distance x = Returned q) pre.
Proof.
  rewrite <- sort_keys_raised. unfold nearest.
  destruct near as [|a0 near0]; [split; discriminate|].
  cbn [length Nat.ltb Nat.leb].
  destruct (sort_keys distance (a0 :: near0)); [split; discriminate|].
  split; intros H; injection H as ->; reflexivity.
Qed.
End NearestFacts.

Lemma nearest_is_first_closest_witness :
  let a (n : string) : gmap string string := {[ "call"%string := n ]} in
  let distance (ac : gmap string string) : py_result Q :=
    match ac !! "call"%string with
    | Some "far"%string => Returned 9%Q
    | Some _ => Returned (1 # 2)%Q
    | None => Raised ValueError
    end in
  [a "far"; a "one"; a "two"]%string <> [] /\
  nearest distance [a "far"; a "one"; a "two"]%string
    = Returned (Some (a "one"%string)) /\
  nearest distance [a "far"; ∅; a "two"]%string = Raised ValueError.
Proof.
  cbn zeta.
  set (distance := fun ac : gmap string string =>
         match ac !! "call"%string with
         | Some "far"%string => Returned 9%Q
         | Some _ => Returned (1 # 2)%Q
         | None => Raised ValueError
         end).
  set (near := [ {[ "call"%string := "far"%string ]};
                 {[ "call"%string := "one"%string ]};
                 {[ "call"%string := "two"%string ]} ] : list (gmap string string)).
  assert (Hne : near <> []) by discriminate.
  assert (Hall : Forall (fun a => exists q, distance a = Returned q) near).
  { repeat constructor; eexists; reflexivity. }
  destruct (proj2 (nearest_is_first_closest distance near) Hne Hall)
    as (ac & q & pre & post & H & _).
  split; [exact Hne|]. split; reflexivity.
Defined.

(** ** Text on the screen *)

Section TextFacts.
Variable getsize : Z -> string -> Z * Z.

Lemma text_loop_spec (fuel : nat) (x y : Z) (t : string) (s : Z) (up : bool)
      (d : list (Z * Z * string * Z)) :
  (Z.to_nat (s - 9) < fuel)%nat ->
  (exists (i : nat) (w h : Z),
     10 <= s - 2 * Z.of_nat i /\
     getsize (s - 2 * Z.of_nat i) t = (w, h) /\
     w <= 320 - x /\
     (forall j : nat, (j < i)%nat ->
        320 - x < fst (getsize (s - 2 * Z.of_nat j) t)) /\
     text_loop getsize fuel x y t s up d =
       Some (if up then y - h - spacing else y + h + spacing,
             d ++ [(x, if up then y - h else y, t, s - 2 * Z.of_nat i)])) \/
  ((forall j : nat, 10 <= s - 2 * Z.of_nat j ->
      320 - x < fst (getsize (s - 2 * Z.of_nat j) t)) /\
   text_loop getsize fuel x y t s up d = Some (y, d)).
Proof.
  revert s. induction fuel as [|fuel IH]; intros s Hf; [lia|].
  cbn [text_loop]. destruct (10 <=? s) eqn:E10;
    [apply Z.leb_le in E10 | apply Z.leb_gt in E10].
  - destruct (getsize s t) as [w h] eqn:G.
    destruct (w <=? 320 - x) eqn:Ew;
      [apply Z.leb_le in Ew | apply Z.leb_gt in Ew].
    + left. exists 0%nat, w, h.
      replace (s - 2 * Z.of_nat 0) with s by lia.
      split; [exact E10|]. split; [exact G|]. split; [exact Ew|].
      split; [intros j Hj; lia|]. destruct up; reflexivity.
    + destruct (IH (s - 2)) as
        [(i & w' & h' & A1 & A2 & A3 & A4 & A5) | (A1 & A2)]; [lia | |].
      * left. exists (S i), w', h'.
        replace (s - 2 * Z.of_nat (S i)) with (s - 2 - 2 * Z.of_nat i) by lia.
        split; [exact A1|]. split; [exact A2|]. split; [exact A3|].
        split; [|exact A5].
        intros [|j] Hj.
        -- replace (s - 2 * Z.of_nat 0) with s by lia. rewrite G. exact Ew.
        -- replace (s - 2 * Z.of_nat (S j)) with (s - 2 - 2 * Z.of_nat j)
             by lia.
           apply A4. lia.
      * right. split; [|exact A2].
        intros [|j] Hj.
        -- replace (s - 2 * Z.of_nat 0) with s by lia. rewrite G. exact Ew.
        -- replace (s - 2 * Z.of_nat (S j)) with (s - 2 - 2 * Z.of_nat j)
             in * by lia.
           now apply A1.
  - right. split; [|reflexivity]. intros j Hj. lia.
Qed.

(** X22. [text] does not write the same text twice in a row: when the text is
    the one of the previous call it draws nothing and returns [y] as it was
    given; and after any call with a text, a second call with that text draws
    nothing, whatever the place and the size, even when the first call found
    no font that fits. *)
Theorem text_skips_a_repeat (x y : Z) (t : string) (s : Z) (up : bool)
        (sc : screen) :
  (last_text sc = t -> text getsize x y t s up sc = Some (y, sc)) /\
  (forall (y1 : Z) (sc1 : screen),
     text getsize x y t s up sc = Some (y1, sc1) ->
     forall (x' y' s' : Z) (up' : bool),
       text getsize x' y' t s' up' sc1 = Some (y', sc1)).
Proof.
  assert (R : forall sc0 x0 y0 s0 up0,
             last_text sc0 = t ->
             text getsize x0 y0 t s0 up0 sc0 = Some (y0, sc0)).
  { intros sc0 x0 y0 s0 up0 H. unfold text.
    now rewrite (proj2 (String.eqb_eq _ _) H). }
  split; [apply R|].
  intros y1 sc1 H x' y' s' up'. apply R.
  unfold text in H. destruct (String.eqb (last_text sc) t) eqn:E.
  - injection H as _ <-. now apply String.eqb_eq.
  - destruct (text_loop _ _ _ _ _ _ _ _) as [[y2 d]|]; [|discriminate].
    injection H as _ <-. reflexivity.
Qed.

(** X23. For a text that is not the one of the previous call, [text] tries
    the sizes [s], [s - 2], [s - 4], ... down to 10 and draws once, with the
    first of them at which the text is at most [320 - x] wide; it returns
    [y + h + spacing] going down, and draws at [y - h] and returns
    [y - h - spacing] going up.  When no size fits it draws nothing and
    returns [y].  In both cases it remembers the text, and it always
    returns. *)
Theorem text_uses_largest_fitting_font (x y : Z) (t : string) (s : Z)
        (up : bool) (sc : screen) :
  last_text sc <> t ->
  (exists (i : nat) (w h : Z),
     10 <= s - 2 * Z.of_nat i /\
     getsize (s - 2 * Z.of_nat i) t = (w, h) /\
     w <= 320 - x /\
     (forall j : nat, (j < i)%nat ->
        320 - x < fst (getsize (s - 2 * Z.of_nat j) t)) /\
     text getsize x y t s up sc =
       Some (if up then y - h - spacing else y + h + spacing,
             Screen t (drawn sc ++
                       [(x, if up then y - h else y, t, s - 2 * Z.of_nat i)]))) \/
  ((forall j : nat, 10 <= s - 2 * Z.of_nat j ->
      320 - x < fst (getsize (s - 2 * Z.of_nat j) t)) /\
   text getsize x y t s up sc = Some (y, Screen t (drawn sc))).
Proof.
  intros H. unfold text.
  rewrite (proj2 (String.eqb_neq _ _) H).
  destruct (text_loop_spec (S (Z.to_nat (s - 9))) x y t s up (drawn sc))
    as [(i & w & h & A1 & A2 & A3 & A4 & A5) | (A1 & A2)]; [lia | |].
  - left. exists i, w, h. rewrite A5. auto.
  - right. rewrite A2. auto.
Qed.
End TextFacts.

Lemma text_uses_largest_fitting_font_witness :
  let getsize (s : Z) (t : string) : Z * Z :=
    (s * Z.of_nat (String.length t), s + 2) in
  let sc := Screen "Lisbon" [] in
  last_text sc <> "British Airways"%string /\
  text getsize 10 10 "British Airways" 32 false sc
    = Some (36, Screen "British Airways" [(10, 10, "British Airways"%string, 20)]) /\
  text getsize 10 36 "British Airways" 24 false
       (Screen "British Airways" [(10, 10, "British Airways"%string, 20)])
    = Some (36, Screen "British Airways" [(10, 10, "British Airways"%string, 20)]).
Proof.
  cbn zeta.
  set (getsize := fun (s : Z) (t : string) =>
                    (s * Z.of_nat (String.length t), s + 2)).
  assert (H : last_text (Screen "Lisbon" []) <> "British Airways"%string)
    by discriminate.
  destruct (text_uses_largest_fitting_font getsize 10 10 "British Airways"
              32 false (Screen "Lisbon" []) H) as [_ | _];
    (split; [exact H|]; split; reflexivity).
Defined.

(** ** The image shown *)

(** X24. [screen_show] replaces the image in one move.  It saves the new
    image under [screen_tmp] and moves it onto [screen_file]: at every moment
    a reader of [screen_file] finds what was there before or the whole new
    image, never an empty or half-written file; afterwards [screen_file]
    holds the new image, [screen_tmp] is gone and no other file has
    changed. *)
Theorem screen_show_replaces_in_one_move {I : Type} (img : I)
        (d : gmap string (option I)) :
  (forall d' : gmap string (option I),
     In d' (file_states d (screen_show_ops img)) ->
     d' !! screen_file = d !! screen_file \/
     d' !! screen_file = Some (Some img)) /\
  foldl file_step d (screen_show_ops img) !! screen_file = Some (Some img) /\
  foldl file_step d (screen_show_ops img) !! screen_tmp = None /\
  (forall p : string,
     p <> screen_file -> p <> screen_tmp ->
     foldl file_step d (screen_show_ops img) !! p = d !! p).
Proof.
  assert (Hne : screen_tmp <> screen_file) by discriminate.
  assert (F : foldl file_step d (screen_show_ops img)
              = <[screen_file := Some img]>
                  (delete screen_tmp
                     (<[screen_tmp := Some img]> (<[screen_tmp := None]> d)))).
  { unfold screen_show_ops. cbn [foldl file_step].
    now rewrite lookup_insert_eq. }
  split; [|rewrite F; split; [|split]].
  - unfold screen_show_ops. cbn [file_states file_step].
    rewrite lookup_insert_eq.
    intros d' [<- | [<- | [<- | [<- | []]]]].
    + left. reflexivity.
    + left. now rewrite lookup_insert_ne.
    + left. now rewrite !lookup_insert_ne.
    + right. apply lookup_insert_eq.
  - apply lookup_insert_eq.
  - rewrite lookup_insert_ne by congruence. apply lookup_delete_eq.
  - intros p H1 H2.
    rewrite lookup_insert_ne by congruence.
    rewrite lookup_delete_ne by congruence.
    now rewrite !lookup_insert_ne by congruence.
Qed.

(** ** The properties above on small inputs *)

Lemma findcsv_first_match_or_fake_witness :
  let rows := [ ["LIS"; "Lisbon"]; ["LHR"; "London"]; ["LIS"; "Other"] ]%string in
  findcsv rows 0 "LIS " = Returned ["LIS"; "Lisbon"]%string /\
  ((exists pre post : list (list string),
      rows = pre ++ ["LIS"; "Lisbon"]%string :: post /\
      ["LIS"; "Lisbon"]%string !! 0%nat = Some (py_strip "LIS ") /\
      Forall (other_row 0 (py_strip "LIS ")) pre) \/
   (["LIS"; "Lisbon"]%string = replicate 5 "LIS "%string /\
    Forall (other_row 0 (py_strip "LIS ")) rows)).
Proof.
  cbn zeta.
  assert (H : findcsv [ ["LIS"; "Lisbon"]; ["LHR"; "London"];
                        ["LIS"; "Other"] ]%string 0 "LIS "
              = Returned ["LIS"; "Lisbon"]%string) by reflexivity.
  split; [exact H|].
  exact (proj1 (findcsv_first_match_or_fake _ 0 "LIS " _) H).
Defined.

Lemma findcsv_raises_on_short_row_witness :
  let rows := [ ["LHR"; "London"]; []; ["LIS"; "Lisbon"] ]%string in
  findcsv rows 0 "LIS" = Raised IndexError /\
  exists (pre : list (list string)) (row : list string)
         (post : list (list string)),
    rows = pre ++ row :: post /\ (length row <= 0)%nat /\
    Forall (other_row 0 (py_strip "LIS")) pre.
Proof.
  cbn zeta.
  assert (H : findcsv [ ["LHR"; "London"]; []; ["LIS"; "Lisbon"] ]%string
                      0 "LIS" = Raised IndexError) by reflexivity.
  split; [exact H|].
  exact (proj2 (proj1 (findcsv_raises_on_short_row _ 0 "LIS" IndexError) H)).
Defined.

Lemma nearest_raises_with_distance_witness :
  let distance (ac : gmap string string) : py_result Q :=
    match ac !! "lat"%string with
    | Some _ => Returned 1%Q
    | None => Raised KeyError
    end in
  let near : list (gmap string string) :=
    [ {[ "lat"%string := "38.7"%string ]}; ∅ ] in
  nearest distance near = Raised KeyError /\
  exists pre a post,
    near = pre ++ a :: post /\ distance a = Raised KeyError /\
    Forall (fun x => exists q, distance x = Returned q) pre.
Proof.
  cbn zeta.
  set (distance := fun ac : gmap string string =>
         match ac !! "lat"%string with
         | Some _ => Returned 1%Q
         | None => Raised KeyError
         end).
  set (near := [ {[ "lat"%string := "38.7"%string ]}; ∅ ]
               : list (gmap string string)).
  assert (H : nearest distance near = Raised KeyError) by reflexivity.
  split; [exact H|].
  exact (proj1 (nearest_raises_with_distance distance near KeyError) H).
Defined.

Lemma text_skips_a_repeat_witness :
  let getsize (s : Z) (t : string) : Z * Z :=
    (s * Z.of_nat (String.length t), s + 2) in
  let sc := Screen "Lisbon" [(10, 10, "Lisbon"%string, 24)] in
  last_text sc = "Lisbon"%string /\
  text getsize 10 40 "Lisbon" 24 false sc = Some (40, sc).
Proof.
  cbn zeta.
  set (getsize := fun (s : Z) (t : string) =>
                    (s * Z.of_nat (String.length t), s + 2)).
  assert (H : last_text (Screen "Lisbon" [(10, 10, "Lisbon"%string, 24)])
              = "Lisbon"%string) by reflexivity.
  split; [exact H|].
  exact (proj1 (text_skips_a_repeat getsize 10 40 "Lisbon" 24 false _) H).
Defined.

Lemma screen_show_replaces_in_one_move_witness :
  let d : gmap string (option nat) := {[ screen_file := Some 1%nat ]} in
  In (<[screen_tmp := None]> d) (file_states d (screen_show_ops 2%nat)) /\
  (<[screen_tmp := None]> d !! screen_file = d !! screen_file \/
   <[screen_tmp := None]> d !! screen_file = Some (Some 2%nat)) /\
  foldl file_step d (screen_show_ops 2%nat) !! screen_file = Some (Some 2%nat).
Proof.
  cbn zeta.
  set (d := {[ screen_file := Some 1%nat ]} : gmap string (option nat)).
  assert (H : In (<[screen_tmp := None]> d)
                 (file_states d (screen_show_ops 2%nat)))
    by (right; left; reflexivity).
  destruct (screen_show_replaces_in_one_move 2%nat d) as (A & B & _).
  split; [exact H|]. split; [exact (A _ H) | exact B].
Defined.
